(** * hyprpy: signals and the event dispatcher of [Instance.watch]

    A shallow embedding of

    - [Signal] ([connect], [disconnect], [emit]) from
      [src/pyprland/utils/signals.py], and
    - [Instance.watch] with its nested [_handle_socket_data] from
      [hyprpy/components/instances.py],

    together with the properties the specification states about them.

    Conventions of the embedding.

    - A Python [str] is a [string]; its characters are the code points
      0..255.
    - A Python object is known by its identity, an [ObjRef]; what a callable
      object does when it is called is looked up in a heap.
    - A call of an observer is seen through what the caller can observe of
      it: it is recorded in a trace, it returns or raises, and it may
      change the observer list of the signal that notifies it. [Live.emit]
      is [Signal.emit] for all observers: its loop reads the observer
      list again at every round. [Signals.emit] is the same loop over a
      list that stays as it is, which is [Signal.emit] for observers that
      leave the list alone ([live_emit_quiet]); the dispatcher is
      modelled with it.
    - Python exceptions are values of [Exn]; code that can raise returns a
      [Res], and code that also calls observers or the socket runs in the
      monad [M], which threads the trace. *)

From Stdlib Require Import String Ascii List ZArith Lia Bool Arith.
From Stdlib Require Import DecimalString Decimal.
Import ListNotations.

#[local] Open Scope string_scope.
#[local] Open Scope list_scope.

(** ** Python strings *)

Module PyStr.

(** The line terminator ['\n']. *)
Definition newline : ascii := "010"%char.

(** [s.split(c)] for a separator [c] of one character: the pieces between
    the occurrences of [c], empty pieces included. *)
Fixpoint split_char (c : ascii) (s : string) : list string :=
  match s with
  | EmptyString => [EmptyString]
  | String a s' =>
      if Ascii.eqb a c then EmptyString :: split_char c s'
      else match split_char c s' with
           | [] => [String a EmptyString]
           | piece :: pieces => String a piece :: pieces
           end
  end.

Fixpoint drop (n : nat) (s : string) : string :=
  match n, s with
  | O, _ => s
  | S _, EmptyString => EmptyString
  | S n', String _ s' => drop n' s'
  end.

(** [s.startswith(p)] *)
Fixpoint starts_with (p s : string) : bool :=
  match p with
  | EmptyString => true
  | String a p' =>
      match s with
      | EmptyString => false
      | String b s' => Ascii.eqb a b && starts_with p' s'
      end
  end.

(** The first occurrence of the non-empty separator [sep] in [s]: what is
    before it and what is after it. *)
Fixpoint partition_first (sep s : string) : option (string * string) :=
  if starts_with sep s then Some (EmptyString, drop (String.length sep) s)
  else match s with
       | EmptyString => None
       | String a s' =>
           match partition_first sep s' with
           | Some (before, after) => Some (String a before, after)
           | None => None
           end
       end.

(** [s.split(sep, maxsplit=1)] for a non-empty separator: [s] alone when
    [sep] does not occur in it, else the two sides of its first
    occurrence. *)
Definition split_max1 (sep s : string) : list string :=
  match partition_first sep s with
  | Some (before, after) => [before; after]
  | None => [s]
  end.

(** The white space that [int] skips around a literal, on the code points
    below 256: tab to carriage return, the space, NEL and the no-break
    space. The separators 28..31, white space for [str.isspace], are not
    skipped by [int]. *)
Definition is_space (c : ascii) : bool :=
  let n := nat_of_ascii c in
  (((9 <=? n) && (n <=? 13)) || (n =? 32) || (n =? 133) || (n =? 160))%nat.

Fixpoint all_space (s : string) : bool :=
  match s with
  | EmptyString => true
  | String c s' => is_space c && all_space s'
  end.

Fixpoint lstrip (s : string) : string :=
  match s with
  | EmptyString => EmptyString
  | String c s' => if is_space c then lstrip s' else s
  end.

(** The value of a decimal digit. *)
Definition digit_value (c : ascii) : option Z :=
  let n := nat_of_ascii c in
  if ((48 <=? n) && (n <=? 57))%nat then Some (Z.of_nat (n - 48)) else None.

(** The digits of an integer literal as [int] reads them: decimal digits,
    with single underscores allowed between two digits, followed only by
    white space. [acc] is the value read so far and [after_digit] tells
    whether the previous character was a digit. *)
Fixpoint int_digits (s : string) (acc : Z) (after_digit : bool) : option Z :=
  match s with
  | EmptyString => if after_digit then Some acc else None
  | String c s' =>
      match digit_value c with
      | Some d => int_digits s' (10 * acc + d) true
      | None =>
          if Ascii.eqb c "_" then
            if after_digit then int_digits s' acc false else None
          else if after_digit && all_space s then Some acc
          else None
      end
  end.

(** The value of the decimal numeral [u] read after [acc], most significant
    digit first. *)
Fixpoint numeral_value (u : uint) (acc : Z) : Z :=
  match u with
  | Nil => acc
  | D0 u' => numeral_value u' (10 * acc + 0)
  | D1 u' => numeral_value u' (10 * acc + 1)
  | D2 u' => numeral_value u' (10 * acc + 2)
  | D3 u' => numeral_value u' (10 * acc + 3)
  | D4 u' => numeral_value u' (10 * acc + 4)
  | D5 u' => numeral_value u' (10 * acc + 5)
  | D6 u' => numeral_value u' (10 * acc + 6)
  | D7 u' => numeral_value u' (10 * acc + 7)
  | D8 u' => numeral_value u' (10 * acc + 8)
  | D9 u' => numeral_value u' (10 * acc + 9)
  end.

(** [c in s] *)
Fixpoint has_char (c : ascii) (s : string) : bool :=
  match s with
  | EmptyString => false
  | String a s' => Ascii.eqb a c || has_char c s'
  end.

(** The text of the lines [lines], each followed by a line terminator,
    and then [fragment]. *)
Definition chunk (lines : list string) (fragment : string) : string :=
  fold_right (fun line rest => line ++ String newline rest)%string
             fragment lines.

(** The number of decimal digits in [s]. *)
Fixpoint count_digits (s : string) : nat :=
  match s with
  | EmptyString => O
  | String c s' =>
      match digit_value c with
      | Some _ => S (count_digits s')
      | None => count_digits s'
      end
  end.

(** [sys.get_int_max_str_digits()] as the interpreter starts with it: [int]
    refuses a literal of more digits. *)
Definition int_max_str_digits : nat := 4300.

(** The integer that the text [s] spells in base ten: white space around
    the literal is skipped, one sign is allowed, and anything else that is
    not a digit sequence is refused, here [None]. *)
Definition int_value (s : string) : option Z :=
  match lstrip s with
  | String "-" s' => option_map Z.opp (int_digits s' 0 false)
  | String "+" s' => int_digits s' 0 false
  | s' => int_digits s' 0 false
  end.

(** [int(s)]: the integer that [s] spells, and a [ValueError], here [None],
    when it spells none or has more than [int_max_str_digits] digits
    (leading zeros count, underscores, the sign and white space do
    not). *)
Definition int (s : string) : option Z :=
  match int_value s with
  | Some z =>
      if (count_digits s <=? int_max_str_digits)%nat then Some z else None
  | None => None
  end.

End PyStr.

(** ** Exceptions, results and traces *)

(** The exceptions the modelled code raises itself, and [OtherError] for
    whatever else an observer or the socket may raise (an [OSError], a
    [KeyboardInterrupt], ...). *)
Inductive Exn : Type :=
| ValueError
| TypeError
| IndexError
| OtherError (name : string).

(** The result of code that may raise. *)
Inductive Res (A : Type) : Type :=
| Val (a : A)
| Exc (e : Exn).
Arguments Val {A} a.
Arguments Exc {A} e.

(** The values the dispatcher passes to observers. *)
Inductive Value : Type :=
| VNone
| VStr (s : string)
| VInt (z : Z).

(** A bag of keyword arguments, in the order they were written. *)
Definition Kwargs : Type := list (string * Value).

(** The identity of a Python object. *)
Definition ObjRef : Type := nat.

(** What the dispatcher does to the outside: calls of observers and calls
    on the event socket, oldest first. *)
Inductive Event : Type :=
| Invoke (callback sender : ObjRef) (kwargs : Kwargs)
| SockConnect
| SockWait
| SockRead
| SockClose.

Definition Trace : Type := list Event.

(** How a run ends: it returns, it raises, or (for the endless loop of
    [watch] only) it is still running when the fuel is spent. *)
Inductive Outcome (A : Type) : Type :=
| Returned (a : A)
| Raised (e : Exn)
| Unfinished.
Arguments Returned {A} a.
Arguments Raised {A} e.
Arguments Unfinished {A}.

Definition M (A : Type) : Type := Trace -> Outcome A * Trace.

Definition ret {A} (a : A) : M A := fun t => (Returned a, t).

Definition raise {A} (e : Exn) : M A := fun t => (Raised e, t).

Definition bind {A B} (m : M A) (k : A -> M B) : M B :=
  fun t =>
    match m t with
    | (Returned a, t') => k a t'
    | (Raised e, t') => (Raised e, t')
    | (Unfinished, t') => (Unfinished, t')
    end.

Notation "x <- m ;; k" := (bind m (fun x => k))
  (at level 61, m at next level, right associativity).
Notation "m ;; k" := (bind m (fun _ => k))
  (at level 61, right associativity).

Definition lift {A} (r : Res A) : M A :=
  match r with
  | Val a => ret a
  | Exc e => raise e
  end.

Definition log (ev : Event) : M unit := fun t => (Returned tt, t ++ [ev]).

(** [for x in l: body(x)] *)
Fixpoint for_each {A} (l : list A) (body : A -> M unit) : M unit :=
  match l with
  | [] => ret tt
  | x :: l' => body x ;; for_each l' body
  end.

(** [while True: body()], the [i]-th round first, for at most [fuel]
    rounds. *)
Fixpoint while_true (fuel i : nat) (body : nat -> M unit) : M unit :=
  match fuel with
  | O => fun t => (Unfinished, t)
  | S fuel' => body i ;; while_true fuel' (S i) body
  end.

(** [try: body finally: final]. [final] runs when [body] has returned or
    raised; what [body] did is then the outcome unless [final] raises. *)
Definition try_finally {A} (body : M A) (final : M unit) : M A :=
  fun t =>
    match body t with
    | (Unfinished, t') => (Unfinished, t')
    | (r, t') =>
        match final t' with
        | (Returned _, t'') => (r, t'')
        | (Raised e, t'') => (Raised e, t'')
        | (Unfinished, t'') => (Unfinished, t'')
        end
    end.

(** A computation that does not close the socket: what it adds to the
    trace has no [SockClose]. *)
Definition adds_no_close {A} (m : M A) : Prop :=
  forall t, exists calls, snd (m t) = t ++ calls /\ ~ In SockClose calls.

(** ** Callable objects *)

(** A heap object as [Signal] sees it: whether it can be called, the two
    facts about its signature that [connect] asks for, and how a call
    [callback(sender, **kwargs)] ends. *)
Record PyObject : Type := {
  callable : bool;
  first_param_is_sender : bool;
  accepts_kwargs : bool;
  body : ObjRef -> Kwargs -> option Exn
}.

Definition Heap : Type := ObjRef -> PyObject.

(** [list.remove(x)]: the list without its first item equal to [x], and
    [None] (a [ValueError]) when there is none. Callables are equal when
    they are the same object. *)
Fixpoint list_remove (x : ObjRef) (l : list ObjRef) : option (list ObjRef) :=
  match l with
  | [] => None
  | y :: l' =>
      if Nat.eqb y x then Some l'
      else option_map (cons y) (list_remove x l')
  end.

(** [key in d] and [d[key]] on a dict written as its items. *)
Fixpoint dict_get {V} (key : string) (d : list (string * V)) : option V :=
  match d with
  | [] => None
  | (k, v) :: d' => if String.eqb k key then Some v else dict_get key d'
  end.

(** ** [pyprland.utils.signals] *)

Module Signals.

Record Signal : Type := {
  _observers : list ObjRef;
  _sender : ObjRef
}.

(** [Signal.__init__] *)
Definition init (sender : ObjRef) : Signal :=
  {| _observers := []; _sender := sender |}.

Section WithHeap.

Variable heap : Heap.

(** Modelled from the spec: [assertions] of [pyprland.utils] is not among
    the sources. By the docstring of [connect], a callback that is not
    callable is a [TypeError] and one whose first positional parameter is
    not [sender] is a [ValueError]. *)
Definition assert_is_callable_and_has_first_param_sender
    (callback : ObjRef) : Res unit :=
  if negb (callable (heap callback)) then Exc TypeError
  else if negb (first_param_is_sender (heap callback)) then Exc ValueError
  else Val tt.

(** Modelled from the spec: as above; a callback that does not accept
    keyword arguments is a [ValueError]. *)
Definition assert_is_callable_and_accepts_kwargs
    (callback : ObjRef) : Res unit :=
  if negb (callable (heap callback)) then Exc TypeError
  else if negb (accepts_kwargs (heap callback)) then Exc ValueError
  else Val tt.

(** [Signal.connect]: the signal after the call, or what was raised. *)
Definition connect (self : Signal) (callback : ObjRef) : Res Signal :=
  match assert_is_callable_and_has_first_param_sender callback with
  | Exc e => Exc e
  | Val _ =>
      match assert_is_callable_and_accepts_kwargs callback with
      | Exc e => Exc e
      | Val _ =>
          Val {| _observers := _observers self ++ [callback];
                 _sender := _sender self |}
      end
  end.

(** [Signal.disconnect] *)
Definition disconnect (self : Signal) (callback : ObjRef) : Res Signal :=
  match list_remove callback (_observers self) with
  | Some observers =>
      Val {| _observers := observers; _sender := _sender self |}
  | None => Exc ValueError
  end.

(** [callback(sender, **kwargs)] for an observer that leaves the observer
    list alone: the call is recorded, and it returns or raises as [body]
    says, the binding of the arguments being part of [body]. [Live.call]
    is the call for all observers. *)
Definition call (callback sender : ObjRef) (kwargs : Kwargs) : M unit :=
  if callable (heap callback) then
    log (Invoke callback sender kwargs) ;;
    match body (heap callback) sender kwargs with
    | None => ret tt
    | Some e => raise e
    end
  else raise TypeError.

(** [Signal.emit] for observers that leave the observer list alone: the
    loop over the list as it stands. [Live.emit] is [Signal.emit] for all
    observers. *)
Definition emit (self : Signal) (kwargs : Kwargs) : M unit :=
  for_each (_observers self)
    (fun callback => call callback (_sender self) kwargs).

(** The calls [emit] makes when it notifies all of [callbacks]. *)
Definition invocations (sender : ObjRef) (kwargs : Kwargs)
    (callbacks : list ObjRef) : Trace :=
  map (fun callback => Invoke callback sender kwargs) callbacks.



End WithHeap.

End Signals.

(** ** [Signal.emit] with observers that change the observer list *)

Module Live.

Import Signals.

(** What a call of an observer does to the observer list of the signal
    that notifies it, by [connect], by [disconnect] or otherwise:
    [effects callback sender kwargs observers] is the list as the call
    leaves it, whether the call returns or raises. *)
Definition Effects : Type :=
  ObjRef -> ObjRef -> Kwargs -> list ObjRef -> list ObjRef.

(** [key in kwargs] *)
Definition has_key (key : string) (kwargs : Kwargs) : bool :=
  existsb (fun item => String.eqb (fst item) key) kwargs.

Section WithHeap.

Variable heap : Heap.
Variable effects : Effects.

(** [callback(self._sender, **kwargs)]: the outcome, the signal as the call
    leaves it and the trace. An object that is not callable and a field
    named [sender], which clashes with the first parameter of the
    callback, are a [TypeError] before the callback runs. *)
Definition call (callback : ObjRef) (self : Signal) (kwargs : Kwargs)
    (t : Trace) : Outcome unit * Signal * Trace :=
  if negb (callable (heap callback)) then (Raised TypeError, self, t)
  else if first_param_is_sender (heap callback) && has_key "sender" kwargs
  then (Raised TypeError, self, t)
  else
    (match body (heap callback) (_sender self) kwargs with
     | None => Returned tt
     | Some e => Raised e
     end,
     {| _observers :=
          effects callback (_sender self) kwargs (_observers self);
        _sender := _sender self |},
     t ++ [Invoke callback (_sender self) kwargs]).

(** [for callback in self._observers: callback(self._sender, **kwargs)]
    from the [i]-th item on: the loop takes the [i]-th item of the list
    as it is when the round begins and ends when there is none. It is cut
    off after [fuel] rounds, as observers that keep adding observers make
    it endless. *)
Fixpoint emit_from (fuel i : nat) (self : Signal) (kwargs : Kwargs)
    (t : Trace) : Outcome unit * Signal * Trace :=
  match fuel with
  | O => (Unfinished, self, t)
  | S fuel' =>
      match nth_error (_observers self) i with
      | None => (Returned tt, self, t)
      | Some callback =>
          match call callback self kwargs t with
          | (Returned _, self', t') => emit_from fuel' (S i) self' kwargs t'
          | (Raised e, self', t') => (Raised e, self', t')
          | (Unfinished, self', t') => (Unfinished, self', t')
          end
      end
  end.

(** [Signal.emit]. A field named [self] clashes with the parameter [self]
    of [emit] and is a [TypeError] before anything is called. *)
Definition emit (fuel : nat) (self : Signal) (kwargs : Kwargs) (t : Trace)
    : Outcome unit * Signal * Trace :=
  if has_key "self" kwargs then (Raised TypeError, self, t)
  else emit_from fuel 0 self kwargs t.

End WithHeap.

End Live.

(** ** [hyprpy.utils.sockets] *)

Module Sockets.

(** Modelled from the spec: [EventSocket] of [hyprpy.utils.sockets] is not
    among the sources. It is the specification's event channel: [connect]
    opens it, [wait] blocks until it is readable, [read] returns the bytes
    at hand as text, [close] releases it, and each of them may fail. The
    record says how the calls end: [wait_result n] and [read_result n] are
    for the calls of the [n]-th round of the watch loop. *)
Record EventSocket : Type := {
  connect_result : option Exn;
  wait_result : nat -> option Exn;
  read_result : nat -> Res string;
  close_result : option Exn
}.

Definition returns_or_raises (r : option Exn) : M unit :=
  match r with
  | None => ret tt
  | Some e => raise e
  end.

Definition connect (s : EventSocket) : M unit :=
  log SockConnect ;; returns_or_raises (connect_result s).

Definition wait (s : EventSocket) (n : nat) : M unit :=
  log SockWait ;; returns_or_raises (wait_result s n).

Definition read (s : EventSocket) (n : nat) : M string :=
  log SockRead ;; lift (read_result s n).

Definition close (s : EventSocket) : M unit :=
  log SockClose ;; returns_or_raises (close_result s).

End Sockets.

(** ** [hyprpy.components.instances] *)

Module Instances.

Import Signals.

(** The attributes of an [Instance] that [watch] uses.

    Modelled from the spec: [hyprpy.utils.signals], from which [Instance]
    takes [Signal] and [DeprecatedSignal], is not among the sources. Its
    [Signal] is taken to be the class of [pyprland.utils.signals] above,
    which is the Signal of the specification, and a [DeprecatedSignal],
    which [watch] only uses through [_observers] and [emit], to be such a
    [Signal], as the annotations of the attributes say. *)
Record Instance : Type := {
  event_socket : Sockets.EventSocket;
  signal_workspace_created : Signal;
  signal_workspace_destroyed : Signal;
  signal_active_workspace_changed : Signal;
  signal_window_created : Signal;
  signal_window_destroyed : Signal;
  signal_active_window_changed : Signal
}.

(** [Instance.__init__]: every signal starts without observers and with the
    instance as its sender. *)
Definition init (self : ObjRef) (socket : Sockets.EventSocket) : Instance :=
  {| event_socket := socket;
     signal_workspace_created := Signals.init self;
     signal_workspace_destroyed := Signals.init self;
     signal_active_workspace_changed := Signals.init self;
     signal_window_created := Signals.init self;
     signal_window_destroyed := Signals.init self;
     signal_active_window_changed := Signals.init self |}.

Section WithHeap.

Variable heap : Heap.

(** The dict [signal_for_event] of [_handle_socket_data]. *)
Definition signal_for_event (self : Instance) : list (string * Signal) :=
  [ ("openwindow", signal_window_created self);
    ("closewindow", signal_window_destroyed self);
    ("activewindowv2", signal_active_window_changed self);
    ("createworkspace", signal_workspace_created self);
    ("destroyworkspace", signal_workspace_destroyed self);
    ("workspace", signal_active_workspace_changed self) ].

(** [int(event_data)] *)
Definition int (event_data : string) : M Z :=
  match PyStr.int event_data with
  | Some z => ret z
  | None => raise ValueError
  end.

(** [l[0]] *)
Definition first_item (l : list string) : M string :=
  match l with
  | x :: _ => ret x
  | [] => raise IndexError
  end.

(** [int(event_data) if event_data != 'special' else -99] *)
Definition workspace_id (event_data : string) : M Z :=
  if negb (String.eqb event_data "special") then int event_data
  else ret (-99)%Z.

(** The body of the loop of [_handle_socket_data], for one line. The
    observers of the six signals are taken to leave the observer lists
    alone, and [emit] is [Signals.emit]. *)
Definition handle_line (self : Instance) (line : string) : M unit :=
  match PyStr.split_max1 ">>" line with
  | [event_name; event_data] =>
      match dict_get event_name (signal_for_event self) with
      | None => ret tt
      | Some signal =>
          match _observers signal with
          | [] => ret tt
          | _ :: _ =>
              if String.eqb event_name "openwindow" then
                address <- first_item (PyStr.split_char "," event_data) ;;
                emit heap signal [("created_window_address", VStr address)]
              else if String.eqb event_name "closewindow" then
                emit heap signal [("destroyed_window_address", VStr event_data)]
              else if String.eqb event_name "activewindowv2" then
                emit heap signal
                  [("active_window_address",
                    if String.eqb event_data "," then VNone
                    else VStr event_data)]
              else if String.eqb event_name "createworkspace" then
                id <- workspace_id event_data ;;
                emit heap signal [("created_workspace_id", VInt id)]
              else if String.eqb event_name "destroyworkspace" then
                id <- workspace_id event_data ;;
                emit heap signal [("destroyed_workspace_id", VInt id)]
              else if String.eqb event_name "workspace" then
                id <- workspace_id event_data ;;
                emit heap signal [("active_workspace_id", VInt id)]
              else ret tt
          end
      end
  | _ => raise ValueError
  end.

(** [for line in lines: ...] *)
Definition handle_lines (self : Instance) (lines : list string) : M unit :=
  for_each lines (handle_line self).

(** [lines = list(filter(lambda line: len(line) > 0, data.split('\n')))] *)
Definition lines_of (data : string) : list string :=
  filter (fun line => (0 <? String.length line)%nat)
         (PyStr.split_char PyStr.newline data).

(** [_handle_socket_data], the function nested in [watch]. *)
Definition _handle_socket_data (self : Instance) (data : string) : M unit :=
  handle_lines self (lines_of data).

(** The three workspace events of [_handle_socket_data]: name, field name
    and signal. *)
Definition workspace_events
    : list (string * string * (Instance -> Signal)) :=
  [ ("createworkspace", "created_workspace_id", signal_workspace_created);
    ("destroyworkspace", "destroyed_workspace_id",
     signal_workspace_destroyed);
    ("workspace", "active_workspace_id", signal_active_workspace_changed) ].

(** One round of the loop of [watch]. *)
Definition watch_round (self : Instance) (n : nat) : M unit :=
  Sockets.wait (event_socket self) n ;;
  data <- Sockets.read (event_socket self) n ;;
  _handle_socket_data self data.

(** [Instance.watch], its loop cut off after [fuel] rounds. *)
Definition watch (self : Instance) (fuel : nat) : M unit :=
  try_finally
    (Sockets.connect (event_socket self) ;;
     while_true fuel 0 (watch_round self))
    (Sockets.close (event_socket self)).

End WithHeap.

End Instances.

(** ** Objects and instances used as examples *)

Module Fixtures.

(** [def observer(sender, **kwargs): pass] *)
Definition returning : PyObject :=
  {| callable := true; first_param_is_sender := true;
     accepts_kwargs := true; body := fun _ _ => None |}.

(** [def observer(sender, **kwargs): raise RuntimeError] *)
Definition raising : PyObject :=
  {| callable := true; first_param_is_sender := true;
     accepts_kwargs := true;
     body := fun _ _ => Some (OtherError "RuntimeError") |}.

(** An object that is not callable, such as the instance itself. *)
Definition plain : PyObject :=
  {| callable := false; first_param_is_sender := false;
     accepts_kwargs := false; body := fun _ _ => Some TypeError |}.

(** Object 0 is the instance; 1 and 3 are observers that return; 2 is an
    observer that raises. *)
Definition heap : Heap :=
  fun r =>
    match r with
    | 1 | 3 => returning
    | 2 => raising
    | _ => plain
    end.

Definition with_observers (observers : list ObjRef) : Signals.Signal :=
  {| Signals._observers := observers; Signals._sender := 0 |}.

(** A socket whose first read returns [data] and whose second wait fails
    because the peer has gone. *)
Definition socket (data : string) : Sockets.EventSocket :=
  {| Sockets.connect_result := None;
     Sockets.wait_result :=
       fun n => match n with
                | O => None
                | S _ => Some (OtherError "ConnectionResetError")
                end;
     Sockets.read_result := fun _ => Val data;
     Sockets.close_result := None |}.

(** An instance with observer 1 on every signal. *)
Definition instance (data : string) : Instances.Instance :=
  {| Instances.event_socket := socket data;
     Instances.signal_workspace_created := with_observers [1];
     Instances.signal_workspace_destroyed := with_observers [1];
     Instances.signal_active_workspace_changed := with_observers [1];
     Instances.signal_window_created := with_observers [1];
     Instances.signal_window_destroyed := with_observers [1];
     Instances.signal_active_window_changed := with_observers [1] |}.

End Fixtures.

(** ** Notions used to state further properties *)

(** [sep in s] *)
Fixpoint str_contains (sep s : string) : bool :=
  PyStr.starts_with sep s
  || match s with
     | EmptyString => false
     | String _ s' => str_contains sep s'
     end.

(** The calls on the event socket in a trace, the calls of observers left
    out. *)
Definition is_socket_call (ev : Event) : bool :=
  match ev with
  | Invoke _ _ _ => false
  | _ => true
  end.

Definition socket_calls (t : Trace) : Trace := filter is_socket_call t.

(** The socket calls of [k] full rounds of the loop of [watch]. *)
Fixpoint rounds (k : nat) : Trace :=
  match k with
  | O => []
  | S k' => SockWait :: SockRead :: rounds k'
  end.

Definition is_finished {A} (o : Outcome A) : bool :=
  match o with
  | Unfinished => false
  | _ => true
  end.

(** A computation that calls observers at most: it leaves the socket
    alone. *)
Definition only_invokes {A} (m : M A) : Prop :=
  forall t, socket_calls (snd (m t)) = socket_calls t.

Module MoreFixtures.

(** The numeral of [n] digits [1]. *)
Fixpoint ones (n : nat) : string :=
  match n with
  | O => EmptyString
  | S n' => String "1" (ones n')
  end.

(** A socket on which every call succeeds and every read returns [data]. *)
Definition steady_socket (data : string) : Sockets.EventSocket :=
  {| Sockets.connect_result := None;
     Sockets.wait_result := fun _ => None;
     Sockets.read_result := fun _ => Val data;
     Sockets.close_result := None |}.

(** A socket on which nothing succeeds. *)
Definition broken_socket : Sockets.EventSocket :=
  {| Sockets.connect_result := Some (OtherError "ConnectionRefusedError");
     Sockets.wait_result := fun _ => Some (OtherError "OSError");
     Sockets.read_result := fun _ => Exc (OtherError "OSError");
     Sockets.close_result := Some (OtherError "BrokenPipeError") |}.

(** The instance of [Fixtures] on another socket. *)
Definition instance_on (socket : Sockets.EventSocket) : Instances.Instance :=
  {| Instances.event_socket := socket;
     Instances.signal_workspace_created := Fixtures.with_observers [1];
     Instances.signal_workspace_destroyed := Fixtures.with_observers [1];
     Instances.signal_active_workspace_changed := Fixtures.with_observers [1];
     Instances.signal_window_created := Fixtures.with_observers [1; 3];
     Instances.signal_window_destroyed := Fixtures.with_observers [1];
     Instances.signal_active_window_changed := Fixtures.with_observers [1] |}.

End MoreFixtures.

Module LiveFixtures.

(** Objects 1, 3 and 5 are observers that return, 2 is an observer that
    raises. *)
Definition heap : Heap :=
  fun r =>
    match r with
    | 1 | 3 | 5 => Fixtures.returning
    | 2 => Fixtures.raising
    | _ => Fixtures.plain
    end.

(** Observer 5 disconnects itself from the signal that notifies it, as a
    call of [disconnect] in its body does. The others leave the observer
    list alone. *)
Definition effects : Live.Effects :=
  fun callback _ _ observers =>
    match callback with
    | 5 =>
        match list_remove 5 observers with
        | Some observers' => observers'
        | None => observers
        end
    | _ => observers
    end.

End LiveFixtures.

(** * Properties *)

(** ** The trace monad *)

Lemma bind_returned {A B} (m : M A) (k : A -> M B) t a t' :
  m t = (Returned a, t') -> bind m k t = k a t'.
Proof. intros H. unfold bind. now rewrite H. Qed.

Lemma bind_raised {A B} (m : M A) (k : A -> M B) t e t' :
  m t = (Raised e, t') -> bind m k t = (Raised e, t').
Proof. intros H. unfold bind. now rewrite H. Qed.

(** ** [list.remove] *)




(** ** [Signal] *)

Section SignalFacts.

Import Signals.

Variable heap : Heap.





Lemma call_cases callback sender kwargs t :
  call heap callback sender kwargs t
  = (Returned tt, t ++ [Invoke callback sender kwargs]) \/
  (exists e, call heap callback sender kwargs t
             = (Raised e, t ++ [Invoke callback sender kwargs])) \/
  call heap callback sender kwargs t = (Raised TypeError, t).
Proof.
  unfold call, bind, log, raise, ret.
  destruct (callable (heap callback)); [|now right; right].
  destruct (body (heap callback) sender kwargs) as [e|];
    [right; left; now exists e | now left].
Qed.


Lemma connect_val self callback self' :
  connect heap self callback = Val self' ->
  _observers self' = _observers self ++ [callback] /\
  _sender self' = _sender self /\
  callable (heap callback) = true.
Proof.
  unfold connect, assert_is_callable_and_has_first_param_sender,
    assert_is_callable_and_accepts_kwargs.
  destruct (callable (heap callback)); simpl; [|discriminate].
  destruct (first_param_is_sender (heap callback)); simpl; [|discriminate].
  destruct (accepts_kwargs (heap callback)); simpl; [|discriminate].
  intros [= <-]. now repeat split.
Qed.


End SignalFacts.

(** ** [emit] in full and [emit] over a list that stays as it is *)

Section LiveFacts.

Import Signals.

Variable heap : Heap.
Variable effects : Live.Effects.

(** A call that leaves the observer list alone is the call of
    [Signals.call]. *)
Lemma live_call_quiet callback self kwargs t :
  Live.has_key "sender" kwargs = false ->
  effects callback (_sender self) kwargs (_observers self)
  = _observers self ->
  Live.call heap effects callback self kwargs t
  = (fst (call heap callback (_sender self) kwargs t), self,
     snd (call heap callback (_sender self) kwargs t)).
Proof.
  intros Hkey Hquiet. unfold Live.call, call, bind, log, ret, raise.
  rewrite Hkey, andb_false_r, Hquiet.
  destruct self as [observers sender]. simpl.
  destruct (callable (heap callback)); simpl; [|reflexivity].
  destruct (body (heap callback) sender kwargs); reflexivity.
Qed.

(** The loop of [emit] from the [i]-th observer on, when the observers
    still to be called leave the list alone, is the loop over them. *)
Lemma live_emit_from_quiet kwargs self :
  Live.has_key "sender" kwargs = false ->
  forall rest before fuel t,
    _observers self = before ++ rest ->
    (forall cb, In cb rest ->
       effects cb (_sender self) kwargs (_observers self)
       = _observers self) ->
    length rest < fuel ->
    Live.emit_from heap effects fuel (length before) self kwargs t
    = (fst (for_each rest
              (fun cb => call heap cb (_sender self) kwargs) t),
       self,
       snd (for_each rest
              (fun cb => call heap cb (_sender self) kwargs) t)).
Proof.
  intros Hkey.
  induction rest as [|cb rest IH]; intros before fuel t Hobs Hquiet Hfuel;
    (destruct fuel as [|fuel]; [simpl in Hfuel; lia|]);
    cbn [Live.emit_from]; rewrite Hobs.
  - rewrite app_nil_r, (proj2 (nth_error_None before (length before)));
      [reflexivity | lia].
  - rewrite nth_error_app2, Nat.sub_diag by lia. cbn [nth_error].
    rewrite live_call_quiet; [|exact Hkey | apply Hquiet; now left].
    cbn [for_each]. unfold bind at 1 2.
    destruct (call heap cb (_sender self) kwargs t) as [[[]|e|] t1];
      try reflexivity.
    cbn [fst snd].
    replace (S (length before)) with (length (before ++ [cb]))
      by (rewrite length_app; simpl; lia).
    apply IH.
    + now rewrite <- app_assoc.
    + intros cb' Hin. apply Hquiet. now right.
    + simpl in Hfuel. lia.
Qed.

Lemma live_emit_quiet self kwargs fuel t :
  (forall cb, In cb (_observers self) ->
     effects cb (_sender self) kwargs (_observers self) = _observers self) ->
  Live.has_key "sender" kwargs = false ->
  Live.has_key "self" kwargs = false ->
  length (_observers self) < fuel ->
  Live.emit heap effects fuel self kwargs t
  = (fst (emit heap self kwargs t), self, snd (emit heap self kwargs t)).
Proof.
  intros Hquiet Hsender Hself Hfuel. unfold Live.emit, emit.
  rewrite Hself.
  exact (live_emit_from_quiet kwargs self Hsender (_observers self) []
           fuel t eq_refl Hquiet Hfuel).
Qed.


End LiveFacts.



Section SignalClaims.

Import Signals.



End SignalClaims.

Section DisconnectClaims.

Import Signals.




End DisconnectClaims.

(** ** Strings *)

Section StringFacts.

Import PyStr.

Lemma numeral_value_pos u : forall p,
  Z.pos (Pos.of_uint_acc u p) = numeral_value u (Z.pos p).
Proof.
  induction u; intros p; cbn [Pos.of_uint_acc numeral_value];
    [reflexivity | rewrite IHu; f_equal; lia ..].
Qed.

Lemma numeral_value_of_uint u : Z.of_uint u = numeral_value u 0.
Proof.
  unfold Z.of_uint.
  induction u; cbn [Pos.of_uint numeral_value Z.of_N];
    [reflexivity | exact IHu | rewrite numeral_value_pos; reflexivity ..].
Qed.

(** [int] reads a digit string as the numeral it spells. *)
Lemma int_digits_numeral s : forall u acc b,
  NilEmpty.uint_of_string s = Some u ->
  s <> EmptyString \/ b = true ->
  int_digits s acc b = Some (numeral_value u acc).
Proof.
  induction s as [|c s IH]; intros u acc b Hu Hb.
  - simpl in Hu. injection Hu as <-.
    destruct Hb as [Hb| ->]; [congruence | reflexivity].
  - simpl in Hu.
    destruct (NilEmpty.uint_of_string s) as [u'|] eqn:Hs; [|discriminate].
    destruct (uint_of_char_spec _ _ _ Hu)
      as [[-> ->]|[[-> ->]|[[-> ->]|[[-> ->]|[[-> ->]|[[-> ->]|[[-> ->]|
          [[-> ->]|[[-> ->]|[-> ->]]]]]]]]]];
      cbn [int_digits digit_value nat_of_ascii]; simpl;
      apply IH; auto.
Qed.

Lemma int_value_of_numeral s d :
  NilZero.int_of_string s = Some d -> PyStr.int_value s = Some (Z.of_int d).
Proof.
  destruct s as [|c s]; [discriminate|]. unfold NilZero.int_of_string.
  destruct (Ascii.eqb_spec c "-") as [->|Hc].
  - unfold NilZero.uint_of_string.
    destruct s as [|c' s]; [discriminate|].
    destruct (NilEmpty.uint_of_string (String c' s)) as [u|] eqn:Hu;
      [|discriminate].
    intros [= <-].
    change (PyStr.int_value (String "-" (String c' s)))
      with (option_map Z.opp (int_digits (String c' s) 0 false)).
    rewrite (int_digits_numeral _ u 0 false Hu) by (left; discriminate).
    simpl. now rewrite numeral_value_of_uint.
  - unfold NilZero.uint_of_string.
    destruct (NilEmpty.uint_of_string (String c s)) as [u|] eqn:Hu;
      [|discriminate].
    intros [= <-]. simpl Z.of_int. rewrite numeral_value_of_uint.
    rewrite <- (int_digits_numeral _ u 0 false Hu) by (left; discriminate).
    simpl in Hu.
    destruct (NilEmpty.uint_of_string s) as [u'|]; [|discriminate].
    destruct (uint_of_char_spec _ _ _ Hu)
      as [[-> _]|[[-> _]|[[-> _]|[[-> _]|[[-> _]|[[-> _]|[[-> _]|
          [[-> _]|[[-> _]|[-> _]]]]]]]]]]; reflexivity.
Qed.

(** [int] reads a numeral of at most [int_max_str_digits] digits as the
    integer it denotes, and refuses a longer one. *)
Lemma int_of_numeral s d :
  NilZero.int_of_string s = Some d ->
  count_digits s <= int_max_str_digits ->
  PyStr.int s = Some (Z.of_int d).
Proof.
  intros Hd Hlen. unfold PyStr.int. rewrite (int_value_of_numeral _ _ Hd).
  apply Nat.leb_le in Hlen. now rewrite Hlen.
Qed.

Lemma int_of_long_numeral s :
  int_max_str_digits < count_digits s -> PyStr.int s = None.
Proof.
  intros Hlen. unfold PyStr.int. destruct (int_value s); [|reflexivity].
  apply Nat.leb_gt in Hlen. now rewrite Hlen.
Qed.

End StringFacts.

(** ** The dispatcher *)

Section DispatcherClaims.

Import Signals Instances.

Variable heap : Heap.

(** The event names the dispatcher knows. *)
Lemma dict_get_unknown self name :
  ~ In name ["openwindow"; "closewindow"; "activewindowv2";
             "createworkspace"; "destroyworkspace"; "workspace"] ->
  dict_get name (signal_for_event self) = None.
Proof.
  intros Hnot. unfold signal_for_event. cbn [dict_get].
  repeat match goal with
  | |- context [String.eqb ?k name] =>
      destruct (String.eqb_spec k name) as [Heq|_];
      [exfalso; apply Hnot; rewrite <- Heq; simpl; tauto|]
  end.
  reflexivity.
Qed.

(** An [emit] on a signal without observers does nothing. *)
Lemma emit_no_observers signal kwargs t :
  _observers signal = [] -> emit heap signal kwargs t = (Returned tt, t).
Proof. intros H. unfold emit. now rewrite H. Qed.

Lemma handle_lines_cons self line rest t :
  handle_lines heap self (line :: rest) t
  = (handle_line heap self line ;; handle_lines heap self rest) t.
Proof. reflexivity. Qed.

(** C4. A line whose event name, the part before the first [>>], is none of
    the six names in [signal_for_event] is passed over: nothing is called,
    nothing is raised, and the lines after it are handled as if it had not
    been there. *)
Theorem unknown_event_is_skipped
    (self : Instance) (line name payload : string)
    (rest : list string) (t : Trace) :
  PyStr.split_max1 ">>" line = [name; payload] ->
  ~ In name ["openwindow"; "closewindow"; "activewindowv2";
             "createworkspace"; "destroyworkspace"; "workspace"] ->
  handle_line heap self line t = (Returned tt, t) /\
  handle_lines heap self (line :: rest) t = handle_lines heap self rest t.
Proof.
  intros Hsplit Hnot.
  assert (H : handle_line heap self line t = (Returned tt, t)).
  { unfold handle_line. rewrite Hsplit.
    now rewrite (dict_get_unknown self name Hnot). }
  split; [exact H|].
  rewrite handle_lines_cons. now rewrite (bind_returned _ _ _ _ _ H).
Qed.

(** C7. A line whose event name is bound to a signal that has no observer
    is passed over before its payload is looked at: nothing is called and
    nothing is raised whatever the payload is, also when it is one that
    [int] rejects. *)
Theorem no_observers_no_decoding
    (self : Instance) (line name payload : string) (signal : Signal)
    (rest : list string) (t : Trace) :
  PyStr.split_max1 ">>" line = [name; payload] ->
  dict_get name (signal_for_event self) = Some signal ->
  _observers signal = [] ->
  handle_line heap self line t = (Returned tt, t) /\
  handle_lines heap self (line :: rest) t = handle_lines heap self rest t.
Proof.
  intros Hsplit Hget Hobs.
  assert (H : handle_line heap self line t = (Returned tt, t)).
  { unfold handle_line. now rewrite Hsplit, Hget, Hobs. }
  split; [exact H|].
  rewrite handle_lines_cons. now rewrite (bind_returned _ _ _ _ _ H).
Qed.

End DispatcherClaims.

Lemma unknown_event_is_skipped_witness :
  Instances.handle_line Fixtures.heap (Fixtures.instance "")
    "futureevent>>x,y" [] = (Returned tt, []) /\
  Instances.handle_lines Fixtures.heap (Fixtures.instance "")
    ["futureevent>>x,y"; "workspace>>3"] []
  = Instances.handle_lines Fixtures.heap (Fixtures.instance "")
      ["workspace>>3"] [].
Proof.
  apply (unknown_event_is_skipped Fixtures.heap (Fixtures.instance "")
           "futureevent>>x,y" "futureevent" "x,y").
  - reflexivity.
  - simpl. intros [H|[H|[H|[H|[H|[H|[]]]]]]]; discriminate.
Defined.

Lemma no_observers_no_decoding_witness :
  Instances.handle_line Fixtures.heap (Instances.init 0 (Fixtures.socket ""))
    "workspace>>not a number" [] = (Returned tt, []) /\
  Instances.handle_lines Fixtures.heap (Instances.init 0 (Fixtures.socket ""))
    ["workspace>>not a number"; "workspace>>3"] []
  = Instances.handle_lines Fixtures.heap
      (Instances.init 0 (Fixtures.socket "")) ["workspace>>3"] [].
Proof.
  apply (no_observers_no_decoding Fixtures.heap
           (Instances.init 0 (Fixtures.socket ""))
           "workspace>>not a number" "workspace" "not a number"
           (Signals.init 0)).
  - reflexivity.
  - reflexivity.
  - reflexivity.
Defined.

Section DecodingClaims.

Import Signals Instances.

Variable heap : Heap.

Lemma workspace_id_special t :
  workspace_id "special" t = (Returned (-99)%Z, t).
Proof. reflexivity. Qed.

Lemma workspace_id_numeral payload d t :
  NilZero.int_of_string payload = Some d ->
  PyStr.count_digits payload <= PyStr.int_max_str_digits ->
  workspace_id payload t = (Returned (Z.of_int d), t).
Proof.
  intros Hd Hlen. unfold workspace_id, int.
  destruct (String.eqb_spec payload "special") as [->|_]; [discriminate|].
  simpl. now rewrite (int_of_numeral _ _ Hd Hlen).
Qed.

(** What the dispatcher does with a line of a workspace event. *)
Lemma handle_workspace_line self name key signal payload t :
  In (name, key, signal) workspace_events ->
  dict_get name (signal_for_event self) = Some (signal self) /\
  PyStr.split_max1 ">>" (name ++ ">>" ++ payload)%string = [name; payload] /\
  handle_line heap self (name ++ ">>" ++ payload)%string t
  = match _observers (signal self) with
    | [] => (Returned tt, t)
    | _ :: _ =>
        (id <- workspace_id payload ;;
         emit heap (signal self) [(key, VInt id)]) t
    end.
Proof.
  intros [[= <- <- <-]|[[= <- <- <-]|[[= <- <- <-]|[]]]];
    (split; [reflexivity|]); (split; [reflexivity|]);
    unfold handle_line;
    match goal with
    | |- context [PyStr.split_max1 ">>" (?n ++ ">>" ++ payload)%string] =>
        change (PyStr.split_max1 ">>" (n ++ ">>" ++ payload)%string)
          with [n; payload]
    end;
    cbv beta iota;
    match goal with
    | |- context [dict_get ?n (signal_for_event self)] =>
        let v := eval cbn in (dict_get n (signal_for_event self)) in
        change (dict_get n (signal_for_event self)) with v
    end;
    cbv beta iota;
    match goal with
    | |- context [_observers ?s] => destruct (_observers s); reflexivity
    end.
Qed.

(** C5, as the code has it. For the events [createworkspace],
    [destroyworkspace] and [workspace], the payload [special] is decoded
    to the integer -99, and a payload that is a decimal numeral (an
    optional minus sign and digits) of at most 4300 digits, the limit of
    [int], to the integer it denotes: the line is an [emit] of that
    integer under the event's field name on the event's signal, and no
    [ValueError] of [int] comes up. *)
Theorem workspace_id_is_decoded
    (self : Instance) (name key : string) (signal : Instance -> Signal)
    (payload : string) (d : Decimal.int) (t : Trace) :
  In (name, key, signal) workspace_events ->
  handle_line heap self (name ++ ">>special")%string t
  = emit heap (signal self) [(key, VInt (-99))] t /\
  (NilZero.int_of_string payload = Some d ->
   PyStr.count_digits payload <= PyStr.int_max_str_digits ->
   handle_line heap self (name ++ ">>" ++ payload)%string t
   = emit heap (signal self) [(key, VInt (Z.of_int d))] t).
Proof.
  intros Hin. split.
  - change (name ++ ">>special")%string
      with (name ++ ">>" ++ "special")%string.
    destruct (handle_workspace_line self name key signal "special" t Hin)
      as (_ & _ & ->).
    destruct (_observers (signal self)) eqn:Hobs.
    + now rewrite emit_no_observers.
    + now rewrite (bind_returned _ _ _ _ _ (workspace_id_special t)).
  - intros Hd Hlen.
    destruct (handle_workspace_line self name key signal payload t Hin)
      as (_ & _ & ->).
    destruct (_observers (signal self)) eqn:Hobs.
    + now rewrite emit_no_observers.
    + now rewrite (bind_returned _ _ _ _ _
                     (workspace_id_numeral _ _ t Hd Hlen)).
Qed.

(** C10. For the event [activewindowv2], the payload [,] is passed to the
    observers as [None] under [active_window_address], and any other
    payload as it is, a string. *)
Theorem active_window_address_is_none_for_comma
    (self : Instance) (payload : string) (t : Trace) :
  handle_line heap self "activewindowv2>>," t
  = emit heap (signal_active_window_changed self)
      [("active_window_address", VNone)] t /\
  (payload <> "," ->
   handle_line heap self ("activewindowv2>>" ++ payload)%string t
   = emit heap (signal_active_window_changed self)
       [("active_window_address", VStr payload)] t).
Proof.
  split.
  - unfold handle_line.
    change (PyStr.split_max1 ">>" "activewindowv2>>,")
      with ["activewindowv2"; ","].
    cbn [dict_get signal_for_event String.eqb Ascii.eqb Bool.eqb].
    destruct (_observers (signal_active_window_changed self)) eqn:Hobs;
      [now rewrite emit_no_observers | reflexivity].
  - intros Hne. unfold handle_line.
    change (PyStr.split_max1 ">>" ("activewindowv2>>" ++ payload)%string)
      with ["activewindowv2"; payload].
    cbn [dict_get signal_for_event String.eqb Ascii.eqb Bool.eqb].
    destruct (_observers (signal_active_window_changed self)) eqn:Hobs;
      [now rewrite emit_no_observers|].
    destruct (String.eqb_spec payload ","); [contradiction | reflexivity].
Qed.

End DecodingClaims.

Lemma workspace_id_is_decoded_witness :
  Instances.handle_line Fixtures.heap (Fixtures.instance "")
    "destroyworkspace>>special" []
  = Signals.emit Fixtures.heap (Fixtures.with_observers [1])
      [("destroyed_workspace_id", VInt (-99))] [] /\
  Instances.handle_line Fixtures.heap (Fixtures.instance "")
    "destroyworkspace>>-042" []
  = Signals.emit Fixtures.heap (Fixtures.with_observers [1])
      [("destroyed_workspace_id", VInt (-42))] [].
Proof.
  destruct (workspace_id_is_decoded Fixtures.heap (Fixtures.instance "")
              "destroyworkspace" "destroyed_workspace_id"
              Instances.signal_workspace_destroyed "-042"
              (Decimal.Neg (D0 (D4 (D2 Nil)))) [])
    as [Hspecial Hnumeral].
  - simpl. right. left. reflexivity.
  - split; [exact Hspecial|]. apply (Hnumeral eq_refl).
    unfold PyStr.int_max_str_digits. simpl. lia.
Defined.

(** C5, as the specification has it, fails: the payload of 4301 digits [1]
    is a decimal numeral, and [int] refuses it because it has more than
    4300 digits; the line [workspace>>11...1] raises a [ValueError] and
    observer 1 is not called. *)
Lemma long_workspace_id_is_refused :
  (match NilZero.int_of_string (MoreFixtures.ones 4301) with
   | Some _ => true
   | None => false
   end) = true /\
  Instances.handle_line Fixtures.heap (Fixtures.instance "")
    ("workspace>>" ++ MoreFixtures.ones 4301)%string []
  = (Raised ValueError, []).
Proof. split; vm_compute; reflexivity. Qed.

Lemma active_window_address_is_none_for_comma_witness :
  Instances.handle_line Fixtures.heap (Fixtures.instance "")
    "activewindowv2>>0x55d0c0ffee" []
  = (Returned tt,
     [Invoke 1 0 [("active_window_address", VStr "0x55d0c0ffee")]]).
Proof.
  apply (active_window_address_is_none_for_comma Fixtures.heap
           (Fixtures.instance "") "0x55d0c0ffee" []).
  discriminate.
Defined.

(** ** Lines of a chunk *)

Section LineFacts.

Import PyStr.

(** A piece that is followed by the separator is an item of the split. *)
Lemma split_char_piece c piece rest :
  has_char c piece = false ->
  split_char c (piece ++ String c rest) = piece :: split_char c rest.
Proof.
  induction piece as [|a piece IH]; simpl; intros H.
  - now rewrite Ascii.eqb_refl.
  - apply orb_false_elim in H as [Ha Hp]. rewrite Ha, (IH Hp). reflexivity.
Qed.

(** So is what follows the last separator. *)
Lemma split_char_last c piece :
  has_char c piece = false -> split_char c piece = [piece].
Proof.
  induction piece as [|a piece IH]; simpl; intros H; [reflexivity|].
  apply orb_false_elim in H as [Ha Hp]. rewrite Ha, (IH Hp). reflexivity.
Qed.

Lemma split_char_chunk lines fragment :
  Forall (fun line => has_char newline line = false) lines ->
  has_char newline fragment = false ->
  split_char newline (chunk lines fragment) = lines ++ [fragment].
Proof.
  intros Hlines Hfrag. induction Hlines as [|line lines Hline _ IH]; simpl.
  - now apply split_char_last.
  - rewrite (split_char_piece _ _ _ Hline). now rewrite IH.
Qed.

End LineFacts.

Lemma for_each_app {A} (l1 l2 : list A) (f : A -> M unit) t :
  for_each (l1 ++ l2) f t = (for_each l1 f ;; for_each l2 f) t.
Proof.
  revert t. induction l1 as [|x l1 IH]; intros t; [reflexivity|].
  change (for_each ((x :: l1) ++ l2) f t)
    with ((f x ;; for_each (l1 ++ l2) f) t).
  change (for_each (x :: l1) f) with (f x ;; for_each l1 f).
  unfold bind in *.
  destruct (f x t) as [[[]|e|] t1]; try reflexivity.
  apply IH.
Qed.

Lemma for_each_one {A} (x : A) (f : A -> M unit) t :
  for_each [x] f t = f x t.
Proof.
  simpl. unfold bind, ret. now destruct (f x t) as [[[]|e|] t1].
Qed.

Section FragmentClaims.

Import Signals Instances.

Variable heap : Heap.

Lemma lines_of_chunk lines fragment :
  Forall (fun line => PyStr.has_char PyStr.newline line = false) lines ->
  PyStr.has_char PyStr.newline fragment = false ->
  lines_of (PyStr.chunk lines fragment)
  = filter (fun line => (0 <? String.length line)%nat) (lines ++ [fragment]).
Proof.
  intros Hlines Hfrag. unfold lines_of.
  now rewrite split_char_chunk.
Qed.

(** C3, as the code has it. A chunk is cut at its line terminators and each
    non-empty piece is handled as an event line, the piece after the last
    terminator too: a chunk that ends in a fragment is handled as its
    complete lines are, and then the fragment as one more line. Nothing is
    kept for the next read and nothing is dropped. *)
Theorem trailing_fragment_is_handled_as_a_line
    (self : Instance) (lines : list string) (fragment : string) (t : Trace) :
  Forall (fun line => PyStr.has_char PyStr.newline line = false) lines ->
  PyStr.has_char PyStr.newline fragment = false ->
  fragment <> EmptyString ->
  _handle_socket_data heap self (PyStr.chunk lines fragment) t
  = (_handle_socket_data heap self (PyStr.chunk lines EmptyString) ;;
     handle_line heap self fragment) t.
Proof.
  intros Hlines Hfrag Hne. unfold _handle_socket_data, handle_lines.
  rewrite !lines_of_chunk by easy.
  rewrite !filter_app. simpl.
  destruct fragment as [|a fragment]; [congruence|]. simpl.
  rewrite app_nil_r, for_each_app. unfold bind.
  destruct (for_each _ _ t) as [[[]|e|] t1]; try reflexivity.
  apply for_each_one.
Qed.

End FragmentClaims.

Lemma trailing_fragment_is_handled_as_a_line_witness :
  Instances._handle_socket_data Fixtures.heap (Fixtures.instance "")
    (PyStr.chunk ["openwindow>>0x1234,1,firefox,Mozilla Firefox"]
                 "createworkspace>>2") []
  = (Returned tt,
     [Invoke 1 0 [("created_window_address", VStr "0x1234")];
      Invoke 1 0 [("created_workspace_id", VInt 2)]]).
Proof.
  rewrite (trailing_fragment_is_handled_as_a_line Fixtures.heap
             (Fixtures.instance "")
             ["openwindow>>0x1234,1,firefox,Mozilla Firefox"]
             "createworkspace>>2" []).
  - reflexivity.
  - repeat constructor.
  - reflexivity.
  - discriminate.
Defined.

(** C3, as the specification has it, fails: a chunk that is nothing but
    the fragment [workspace>>1], the beginning of a line such as
    [workspace>>12], is handled as the event [workspace>>1] and observer 1
    is called with the workspace id 1. *)
Lemma trailing_fragment_is_emitted :
  Instances._handle_socket_data Fixtures.heap (Fixtures.instance "")
    "workspace>>1" []
  = (Returned tt, [Invoke 1 0 [("active_workspace_id", VInt 1)]]).
Proof. reflexivity. Qed.

(** ** Malformed lines *)

Section MalformedClaims.

Import Signals Instances.

Variable heap : Heap.

Lemma workspace_id_rejected payload t :
  payload <> "special" ->
  PyStr.int payload = None ->
  workspace_id payload t = (Raised ValueError, t).
Proof.
  intros Hne Hint. unfold workspace_id, int.
  destruct (String.eqb_spec payload "special"); [contradiction|].
  simpl. now rewrite Hint.
Qed.

(** A round of the loop whose chunk makes the handler raise ends the loop
    with that exception. *)
Lemma loop_ends_when_handler_raises self n fuel data t e t' :
  Sockets.wait_result (event_socket self) n = None ->
  Sockets.read_result (event_socket self) n = Val data ->
  _handle_socket_data heap self data (t ++ [SockWait; SockRead])
  = (Raised e, t') ->
  while_true (S fuel) n (watch_round heap self) t = (Raised e, t').
Proof.
  intros Hwait Hread Hraise. simpl. apply bind_raised.
  unfold watch_round, Sockets.wait, Sockets.read, Sockets.returns_or_raises.
  rewrite Hwait, Hread. unfold bind, log, ret, lift.
  rewrite <- app_assoc. simpl. now rewrite Hraise.
Qed.

(** C2, as the code has it. A line without the separator [>>] raises a
    [ValueError] (the unpacking of the split fails), and so does the line
    of a workspace event whose signal has an observer and whose payload is
    neither [special] nor accepted by [int]. Nothing catches it: the lines
    after it in the chunk are not handled, and the loop of [watch] ends
    with the exception the handler raised. *)
Theorem malformed_line_raises
    (self : Instance) (line : string) (rest : list string) (t : Trace) :
  (PyStr.split_max1 ">>" line = [line] ->
   handle_lines heap self (line :: rest) t = (Raised ValueError, t)) /\
  (forall name key signal payload,
     In (name, key, signal) workspace_events ->
     line = (name ++ ">>" ++ payload)%string ->
     _observers (signal self) <> [] ->
     payload <> "special" ->
     PyStr.int payload = None ->
     handle_lines heap self (line :: rest) t = (Raised ValueError, t)) /\
  (forall n fuel data e t',
     Sockets.wait_result (event_socket self) n = None ->
     Sockets.read_result (event_socket self) n = Val data ->
     _handle_socket_data heap self data (t ++ [SockWait; SockRead])
     = (Raised e, t') ->
     while_true (S fuel) n (watch_round heap self) t = (Raised e, t')).
Proof.
  split; [|split].
  - intros Hsplit. rewrite handle_lines_cons. apply bind_raised.
    unfold handle_line. now rewrite Hsplit.
  - intros name key signal payload Hin -> Hobs Hne Hint.
    rewrite handle_lines_cons. apply bind_raised.
    destruct (handle_workspace_line heap self name key signal payload t Hin)
      as (_ & _ & ->).
    destruct (_observers (signal self)); [congruence|].
    apply bind_raised. now apply workspace_id_rejected.
  - intros n fuel data e t'. apply loop_ends_when_handler_raises.
Qed.

End MalformedClaims.

Lemma malformed_line_raises_witness :
  Instances.handle_lines Fixtures.heap (Fixtures.instance "")
    ["bogus"; "workspace>>1"] [] = (Raised ValueError, []) /\
  Instances.handle_lines Fixtures.heap (Fixtures.instance "")
    ["workspace>>one"; "workspace>>1"] [] = (Raised ValueError, []).
Proof.
  split.
  - apply (malformed_line_raises Fixtures.heap (Fixtures.instance "")
             "bogus" ["workspace>>1"] []).
    reflexivity.
  - apply (proj1 (proj2 (malformed_line_raises Fixtures.heap
                           (Fixtures.instance "") "workspace>>one"
                           ["workspace>>1"] []))
             "workspace" "active_workspace_id"
             Instances.signal_active_workspace_changed "one").
    + simpl. right. right. left. reflexivity.
    + reflexivity.
    + discriminate.
    + discriminate.
    + reflexivity.
Defined.

(** C2, as the specification has it, fails: in the chunk of the two lines
    [bogus] and [workspace>>1] the first has no separator; the handler
    raises a [ValueError] and the second line is never handled (no
    observer is called), and [watch] on a socket that delivers this chunk
    ends with that [ValueError] after its first read. *)
Lemma malformed_line_aborts_the_loop :
  Instances._handle_socket_data Fixtures.heap (Fixtures.instance "")
    (PyStr.chunk ["bogus"; "workspace>>1"] "") []
  = (Raised ValueError, []) /\
  Instances.watch Fixtures.heap
    (Fixtures.instance (PyStr.chunk ["bogus"; "workspace>>1"] "")) 3 []
  = (Raised ValueError, [SockConnect; SockWait; SockRead; SockClose]).
Proof. split; reflexivity. Qed.

(** ** The loop of [watch] and its cleanup *)

Create HintDb no_close.

Lemma ret_no_close {A} (a : A) : adds_no_close (ret a).
Proof. intros t. exists []. simpl. now rewrite app_nil_r. Qed.

Lemma raise_no_close {A} (e : Exn) : adds_no_close (@raise A e).
Proof. intros t. exists []. simpl. now rewrite app_nil_r. Qed.

Lemma lift_no_close {A} (r : Res A) : adds_no_close (lift r).
Proof. destruct r; [apply ret_no_close | apply raise_no_close]. Qed.

Lemma log_no_close ev : ev <> SockClose -> adds_no_close (log ev).
Proof.
  intros Hne t. exists [ev]. split; [reflexivity|].
  intros [H|[]]. now apply Hne.
Qed.

Lemma bind_no_close {A B} (m : M A) (k : A -> M B) :
  adds_no_close m -> (forall a, adds_no_close (k a)) ->
  adds_no_close (bind m k).
Proof.
  intros Hm Hk t. destruct (Hm t) as (c1 & H1 & N1). unfold bind.
  destruct (m t) as [[a|e|] t1]; simpl in H1; subst t1;
    try (exists c1; now split).
  destruct (Hk a (t ++ c1)) as (c2 & H2 & N2).
  exists (c1 ++ c2). rewrite H2, app_assoc. split; [reflexivity|].
  intros Hin. apply in_app_or in Hin. tauto.
Qed.

Lemma for_each_no_close {A} (l : list A) (f : A -> M unit) :
  (forall x, adds_no_close (f x)) -> adds_no_close (for_each l f).
Proof.
  intros Hf. induction l as [|x l IH]; simpl.
  - apply ret_no_close.
  - apply bind_no_close; auto.
Qed.

Lemma while_true_no_close fuel (f : nat -> M unit) :
  (forall n, adds_no_close (f n)) ->
  forall i, adds_no_close (while_true fuel i f).
Proof.
  intros Hf. induction fuel as [|fuel IH]; intros i; simpl.
  - intros t. exists []. simpl. now rewrite app_nil_r.
  - apply bind_no_close; auto.
Qed.

#[local] Hint Resolve ret_no_close raise_no_close lift_no_close
  bind_no_close for_each_no_close while_true_no_close : no_close.

Section WatchClaims.

Import Signals Instances.

Variable heap : Heap.

Lemma call_no_close callback sender kwargs :
  adds_no_close (call heap callback sender kwargs).
Proof.
  unfold call. destruct (callable (heap callback)); auto with no_close.
  apply bind_no_close; [apply log_no_close; discriminate|].
  intros _. destruct (body _ _ _); auto with no_close.
Qed.

Lemma emit_no_close signal kwargs : adds_no_close (emit heap signal kwargs).
Proof. apply for_each_no_close. intros cb. apply call_no_close. Qed.

Lemma workspace_id_no_close payload : adds_no_close (workspace_id payload).
Proof.
  unfold workspace_id, int.
  destruct (negb _); [destruct (PyStr.int payload)|]; auto with no_close.
Qed.

Lemma handle_line_no_close self line :
  adds_no_close (handle_line heap self line).
Proof.
  unfold handle_line.
  destruct (PyStr.split_max1 ">>" line) as [|name [|payload [|]]];
    auto with no_close.
  destruct (dict_get name (signal_for_event self)) as [signal|];
    auto with no_close.
  destruct (_observers signal); auto with no_close.
  repeat match goal with
  | |- adds_no_close (if ?b then _ else _) => destruct b
  end;
  repeat first
    [ apply emit_no_close
    | apply workspace_id_no_close
    | apply ret_no_close
    | apply bind_no_close; [|intros ?]
    | unfold first_item; destruct (PyStr.split_char _ _);
      auto with no_close ].
Qed.

Lemma watch_round_no_close self n : adds_no_close (watch_round heap self n).
Proof.
  unfold watch_round, Sockets.wait, Sockets.read, Sockets.returns_or_raises.
  apply bind_no_close.
  - apply bind_no_close; [apply log_no_close; discriminate|].
    intros _. destruct (Sockets.wait_result _ _); auto with no_close.
  - intros _. apply bind_no_close.
    + apply bind_no_close; [apply log_no_close; discriminate|].
      auto with no_close.
    + intros data. apply for_each_no_close. apply handle_line_no_close.
Qed.

(** Before the cleanup, [watch] does not close the socket. *)
Lemma watch_body_no_close self fuel :
  adds_no_close
    (Sockets.connect (event_socket self) ;;
     while_true fuel 0 (watch_round heap self)).
Proof.
  apply bind_no_close.
  - unfold Sockets.connect, Sockets.returns_or_raises.
    apply bind_no_close; [apply log_no_close; discriminate|].
    intros _. destruct (Sockets.connect_result _); auto with no_close.
  - intros _. apply while_true_no_close. apply watch_round_no_close.
Qed.

(** C8. However [watch] ends, by an exception of [connect], [wait], [read]
    or the handler (there is no other way out of its loop), the last thing
    it does is the [close] of the event socket, and it does it once. *)
Theorem watch_closes_the_socket_on_exit
    (self : Instance) (fuel : nat) (t : Trace)
    (o : Outcome unit) (t' : Trace) :
  watch heap self fuel t = (o, t') ->
  o <> Unfinished ->
  exists calls, t' = t ++ calls ++ [SockClose] /\ ~ In SockClose calls.
Proof.
  unfold watch, try_finally. intros Hrun Hdone.
  destruct (watch_body_no_close self fuel t) as (calls & Htr & Hnot).
  destruct ((Sockets.connect (event_socket self) ;;
             while_true fuel 0 (watch_round heap self)) t) as [r t1].
  simpl in Htr. subst t1.
  exists calls. split; [|exact Hnot].
  unfold Sockets.close, Sockets.returns_or_raises, bind, log in Hrun.
  destruct r as [[]|e|];
    [ | | injection Hrun as <- _; congruence ];
    destruct (Sockets.close_result (event_socket self));
    simpl in Hrun; injection Hrun as _ <-; now rewrite app_assoc.
Qed.

(** The loop has no way out but an exception. *)
Lemma while_true_never_returns (f : nat -> M unit) fuel : forall i t,
  fst (while_true fuel i f t) <> Returned tt.
Proof.
  induction fuel as [|fuel IH]; intros i t; simpl; [discriminate|].
  unfold bind. destruct (f i t) as [[[]|e|] t1]; simpl;
    [apply IH | discriminate | discriminate].
Qed.

Lemma watch_never_returns self fuel t :
  fst (watch heap self fuel t) <> Returned tt.
Proof.
  unfold watch, try_finally. unfold bind at 1.
  destruct (Sockets.connect (event_socket self) t) as [[[]|e|] t1].
  - pose proof (while_true_never_returns (watch_round heap self) fuel 0 t1)
      as Hloop.
    destruct (while_true fuel 0 (watch_round heap self) t1)
      as [[[]|e|] t2]; simpl in Hloop; [congruence| |discriminate].
    destruct (Sockets.close (event_socket self) t2) as [[[]|e'|] t3];
      discriminate.
  - destruct (Sockets.close (event_socket self) t1) as [[[]|e'|] t3];
      discriminate.
  - discriminate.
Qed.

(** An exit of the loop does not depend on the fuel that was left. *)
Lemma while_true_more_fuel (f : nat -> M unit) fuel : forall i t o t',
  while_true fuel i f t = (o, t') ->
  o <> Unfinished ->
  while_true (S fuel) i f t = (o, t').
Proof.
  induction fuel as [|fuel IH]; intros i t o t' Hrun Hdone.
  - simpl in Hrun. injection Hrun as <- _. congruence.
  - change (while_true (S (S fuel)) i f)
      with (f i ;; while_true (S fuel) (S i) f).
    change (while_true (S fuel) i f)
      with (f i ;; while_true fuel (S i) f) in Hrun.
    unfold bind in *. destruct (f i t) as [[[]|e|] t1]; try exact Hrun.
    now apply IH.
Qed.

Lemma watch_more_fuel self fuel t o t' :
  watch heap self fuel t = (o, t') ->
  o <> Unfinished ->
  watch heap self (S fuel) t = (o, t').
Proof.
  unfold watch, try_finally. intros Hrun Hdone.
  unfold bind at 1. unfold bind at 1 in Hrun.
  destruct (Sockets.connect (event_socket self) t) as [[[]|e|] t1];
    try exact Hrun.
  destruct (while_true fuel 0 (watch_round heap self) t1)
    as [[[]|e|] t2] eqn:Hloop.
  - rewrite (while_true_more_fuel _ _ _ _ _ _ Hloop); [exact Hrun|].
    discriminate.
  - rewrite (while_true_more_fuel _ _ _ _ _ _ Hloop); [exact Hrun|].
    discriminate.
  - injection Hrun as <- _. congruence.
Qed.

(** [watch] does end when [connect] fails ... *)
Lemma watch_ends_when_connect_fails self fuel t e :
  Sockets.connect_result (event_socket self) = Some e ->
  Sockets.close_result (event_socket self) = None ->
  watch heap self fuel t = (Raised e, t ++ [SockConnect; SockClose]).
Proof.
  intros Hc Hcl.
  unfold watch, try_finally, Sockets.connect, Sockets.close,
    Sockets.returns_or_raises, bind, log.
  rewrite Hc, Hcl. simpl. now rewrite <- app_assoc.
Qed.

(** ... and when the first [wait] does, for instance because the peer has
    gone. *)
Lemma watch_ends_when_wait_fails self fuel t e :
  Sockets.connect_result (event_socket self) = None ->
  Sockets.wait_result (event_socket self) 0 = Some e ->
  Sockets.close_result (event_socket self) = None ->
  watch heap self (S fuel) t
  = (Raised e, t ++ [SockConnect; SockWait; SockClose]).
Proof.
  intros Hc Hw Hcl.
  unfold watch, try_finally, Sockets.connect, Sockets.close.
  cbn [while_true]. unfold watch_round, Sockets.wait,
    Sockets.returns_or_raises, bind, log.
  rewrite Hc, Hw, Hcl. simpl. now rewrite <- !app_assoc.
Qed.

End WatchClaims.

Lemma watch_closes_the_socket_on_exit_witness :
  exists calls,
    [SockConnect; SockWait; SockRead;
     Invoke 1 0 [("active_workspace_id", VInt (-99))];
     SockWait; SockClose]
    = [] ++ calls ++ [SockClose] /\ ~ In SockClose calls.
Proof.
  apply (watch_closes_the_socket_on_exit Fixtures.heap
           (Fixtures.instance (PyStr.chunk ["workspace>>special"] ""))
           2 [] (Raised (OtherError "ConnectionResetError"))).
  - reflexivity.
  - discriminate.
Defined.

(** ** The example of the specification *)

(** The chunk of an [openwindow] line and a [createworkspace] line gives
    one call with the window address and one with the workspace id. *)
Example two_events_in_one_chunk :
  Instances._handle_socket_data Fixtures.heap (Fixtures.instance "")
    (PyStr.chunk ["openwindow>>0x1234,1,firefox,Mozilla Firefox";
                  "createworkspace>>2"] "") []
  = (Returned tt,
     [Invoke 1 0 [("created_window_address", VStr "0x1234")];
      Invoke 1 0 [("created_workspace_id", VInt 2)]]).
Proof. reflexivity. Qed.

(** * Further properties *)

(** ** [Signal]: how [connect], [disconnect] and [emit] work together *)

Section SignalComposition.

Import Signals.

Variable heap : Heap.

Lemma list_remove_fresh_last x l :
  ~ In x l -> list_remove x (l ++ [x]) = Some l.
Proof.
  induction l as [|y l IH]; intros Hnot; simpl.
  - now rewrite Nat.eqb_refl.
  - destruct (Nat.eqb_spec y x) as [->|_].
    + exfalso. apply Hnot. now left.
    + rewrite IH; [reflexivity|]. intros Hin. apply Hnot. now right.
Qed.

Lemma list_remove_first x before after :
  ~ In x before ->
  list_remove x (before ++ x :: after) = Some (before ++ after).
Proof.
  induction before as [|y l IH]; intros Hnot; simpl.
  - now rewrite Nat.eqb_refl.
  - destruct (Nat.eqb_spec y x) as [->|_].
    + exfalso. apply Hnot. now left.
    + rewrite IH; [reflexivity|]. intros Hin. apply Hnot. now right.
Qed.

(** X1. A [connect] of a callback that was not registered, followed by its
    [disconnect], gives the signal back as it was. *)
Theorem connect_then_disconnect_restores
    (self self1 : Signal) (callback : ObjRef) :
  connect heap self callback = Val self1 ->
  ~ In callback (_observers self) ->
  disconnect self1 callback = Val self.
Proof.
  intros Hconn Hnot.
  destruct (connect_val heap _ _ _ Hconn) as (Hobs & Hsnd & _).
  unfold disconnect. rewrite Hobs, (list_remove_fresh_last _ _ Hnot), Hsnd.
  now destruct self.
Qed.

(** X2. When the callback was registered already, [disconnect] after [connect]
    does not undo the [connect]: it is the oldest registration that goes,
    and the callback is now notified last. *)
Theorem disconnect_drops_the_oldest_registration
    (self self1 : Signal) (callback : ObjRef)
    (before after : list ObjRef) :
  connect heap self callback = Val self1 ->
  _observers self = before ++ callback :: after ->
  ~ In callback before ->
  disconnect self1 callback
  = Val {| _observers := before ++ after ++ [callback];
           _sender := _sender self |}.
Proof.
  intros Hconn Hobs Hnot.
  destruct (connect_val heap _ _ _ Hconn) as (Hobs1 & Hsnd & _).
  unfold disconnect. rewrite Hobs1, Hobs, Hsnd, <- app_assoc. simpl.
  now rewrite (list_remove_first _ _ _ Hnot).
Qed.

End SignalComposition.

Section LiveComposition.

Import Signals.

Variable heap : Heap.
Variable effects : Live.Effects.

(** The loop over a list of observers calls a first part of the list and
    ends: all of it when it returns. *)
Lemma notify_first_part sender kwargs callbacks t :
  exists called rest,
    callbacks = called ++ rest /\
    snd (for_each callbacks (fun cb => call heap cb sender kwargs) t)
    = t ++ invocations sender kwargs called /\
    is_finished
      (fst (for_each callbacks (fun cb => call heap cb sender kwargs) t))
    = true /\
    (fst (for_each callbacks (fun cb => call heap cb sender kwargs) t)
     = Returned tt -> rest = []).
Proof.
  revert t. induction callbacks as [|cb l IH]; intros t.
  - exists [], []. simpl. rewrite app_nil_r. now repeat split.
  - cbn [for_each].
    destruct (call_cases heap cb sender kwargs t) as [H|[[e H]|H]].
    + rewrite (bind_returned _ _ _ _ _ H).
      destruct (IH (t ++ [Invoke cb sender kwargs]))
        as (called & rest & Hl & Htr & Hfin & Hret).
      exists (cb :: called), rest. split; [simpl; now rewrite Hl|].
      split; [|now split].
      rewrite Htr, <- app_assoc. reflexivity.
    + rewrite (bind_raised _ _ _ _ _ H). exists [cb], l.
      repeat split. discriminate.
    + rewrite (bind_raised _ _ _ _ _ H). exists [], (cb :: l).
      simpl. rewrite app_nil_r. repeat split. discriminate.
Qed.

(** X3. When no observer changes the observer list while it is notified
    and no field is named [sender] or [self], an [emit] after a [connect]
    is the [emit] of before followed by the call of the new observer: the
    new observer comes last, and it is not called when one before it
    raises. *)
Theorem emit_after_connect_calls_the_new_observer_last
    (self self1 : Signal) (callback : ObjRef) (kwargs : Kwargs)
    (fuel : nat) (t : Trace) :
  connect heap self callback = Val self1 ->
  (forall cb l, In cb (_observers self1) ->
     effects cb (_sender self) kwargs l = l) ->
  Live.has_key "sender" kwargs = false ->
  Live.has_key "self" kwargs = false ->
  length (_observers self1) < fuel ->
  Live.emit heap effects fuel self1 kwargs t
  = match Live.emit heap effects fuel self kwargs t with
    | (Returned _, _, t1) =>
        match Live.call heap effects callback self1 kwargs t1 with
        | (o, _, t2) => (o, self1, t2)
        end
    | (o, _, t1) => (o, self1, t1)
    end.
Proof.
  intros Hconn Hquiet Hsender Hself Hfuel.
  destruct (connect_val heap _ _ _ Hconn) as (Hobs & Hsnd & _).
  rewrite (live_emit_quiet heap effects self1); try assumption;
    [|intros cb Hin; rewrite Hsnd; now apply Hquiet].
  rewrite (live_emit_quiet heap effects self); try assumption.
  2:{ intros cb Hin. apply Hquiet. rewrite Hobs. apply in_or_app. now left. }
  2:{ rewrite Hobs, length_app in Hfuel. simpl in Hfuel. lia. }
  unfold emit. rewrite Hobs, Hsnd, for_each_app. unfold bind.
  destruct (for_each (_observers self) _ t) as [[[]|e|] t1];
    try reflexivity.
  cbn [fst snd].
  rewrite live_call_quiet;
    [|exact Hsender
     |rewrite Hsnd; apply Hquiet; rewrite Hobs; apply in_or_app; right;
      now left].
  rewrite Hsnd.
  rewrite (for_each_one callback
             (fun cb => call heap cb (_sender self) kwargs) t1).
  now destruct (call heap callback (_sender self) kwargs t1).
Qed.

(** X4. When no observer changes the observer list while it is notified
    and no field is named [sender] or [self], then whether the observers
    return or raise, [emit] ends, and its calls are the calls of a first
    part of the observer list, in its order, each with the signal's sender
    and the fields given: no observer is passed over or called out of
    turn, nothing that is not registered is called, and when [emit]
    returns all of them were called. *)
Theorem emit_calls_a_first_part_of_the_observers
    (self : Signal) (kwargs : Kwargs) (fuel : nat) (t : Trace) :
  (forall cb, In cb (_observers self) ->
     effects cb (_sender self) kwargs (_observers self) = _observers self) ->
  Live.has_key "sender" kwargs = false ->
  Live.has_key "self" kwargs = false ->
  length (_observers self) < fuel ->
  exists o called rest,
    _observers self = called ++ rest /\
    Live.emit heap effects fuel self kwargs t
    = (o, self, t ++ invocations (_sender self) kwargs called) /\
    is_finished o = true /\
    (o = Returned tt -> rest = []).
Proof.
  intros Hquiet Hsender Hself Hfuel.
  rewrite live_emit_quiet by assumption. unfold emit.
  destruct (notify_first_part (_sender self) kwargs (_observers self) t)
    as (called & rest & Hl & Htr & Hfin & Hret).
  exists (fst (for_each (_observers self)
                 (fun cb => call heap cb (_sender self) kwargs) t)),
    called, rest.
  rewrite Htr. now repeat split.
Qed.

(** X17. When no observer changes the observer list while it is notified
    and no field is named [sender] or [self], [emit] is the loop over the
    observer list as it stands when [emit] is called, and leaves the
    signal as it was. *)
Theorem emit_is_the_loop_over_the_list_when_observers_leave_it_alone
    (self : Signal) (kwargs : Kwargs) (fuel : nat) (t : Trace) :
  (forall cb, In cb (_observers self) ->
     effects cb (_sender self) kwargs (_observers self) = _observers self) ->
  Live.has_key "sender" kwargs = false ->
  Live.has_key "self" kwargs = false ->
  length (_observers self) < fuel ->
  Live.emit heap effects fuel self kwargs t
  = (fst (emit heap self kwargs t), self, snd (emit heap self kwargs t)).
Proof. exact (live_emit_quiet heap effects self kwargs fuel t). Qed.

End LiveComposition.

Lemma emit_after_connect_calls_the_new_observer_last_witness :
  Live.emit LiveFixtures.heap LiveFixtures.effects 3
    (Fixtures.with_observers [2; 1]) [] []
  = match Live.emit LiveFixtures.heap LiveFixtures.effects 3
            (Fixtures.with_observers [2]) [] [] with
    | (Returned _, _, t1) =>
        match Live.call LiveFixtures.heap LiveFixtures.effects 1
                (Fixtures.with_observers [2; 1]) [] t1 with
        | (o, _, t2) => (o, Fixtures.with_observers [2; 1], t2)
        end
    | (o, _, t1) => (o, Fixtures.with_observers [2; 1], t1)
    end.
Proof.
  apply (emit_after_connect_calls_the_new_observer_last LiveFixtures.heap
           LiveFixtures.effects (Fixtures.with_observers [2])
           (Fixtures.with_observers [2; 1]) 1 [] 3 []).
  - reflexivity.
  - intros cb l [<-|[<-|[]]]; reflexivity.
  - reflexivity.
  - reflexivity.
  - simpl. lia.
Defined.

Lemma emit_calls_a_first_part_of_the_observers_witness :
  exists o called rest,
    [1; 2; 3] = called ++ rest /\
    Live.emit LiveFixtures.heap LiveFixtures.effects 4
      (Fixtures.with_observers [1; 2; 3]) [("info", VNone)] []
    = (o, Fixtures.with_observers [1; 2; 3],
       [] ++ Signals.invocations 0 [("info", VNone)] called) /\
    is_finished o = true /\
    (o = Returned tt -> rest = []).
Proof.
  apply (emit_calls_a_first_part_of_the_observers LiveFixtures.heap
           LiveFixtures.effects (Fixtures.with_observers [1; 2; 3])
           [("info", VNone)] 4 []).
  - intros cb [<-|[<-|[<-|[]]]]; reflexivity.
  - reflexivity.
  - reflexivity.
  - simpl. lia.
Defined.

Lemma emit_is_the_loop_over_the_list_when_observers_leave_it_alone_witness :
  Live.emit LiveFixtures.heap LiveFixtures.effects 3
    (Fixtures.with_observers [1; 2]) [] []
  = (fst (Signals.emit LiveFixtures.heap (Fixtures.with_observers [1; 2])
            [] []),
     Fixtures.with_observers [1; 2],
     snd (Signals.emit LiveFixtures.heap (Fixtures.with_observers [1; 2])
            [] [])).
Proof.
  apply (emit_is_the_loop_over_the_list_when_observers_leave_it_alone
           LiveFixtures.heap LiveFixtures.effects
           (Fixtures.with_observers [1; 2]) [] 3 []).
  - intros cb [<-|[<-|[]]]; reflexivity.
  - reflexivity.
  - reflexivity.
  - simpl. lia.
Defined.

Lemma connect_then_disconnect_restores_witness :
  Signals.disconnect (Fixtures.with_observers [1; 3]) 3
  = Val (Fixtures.with_observers [1]).
Proof.
  apply (connect_then_disconnect_restores Fixtures.heap (Fixtures.with_observers [1])
           (Fixtures.with_observers [1; 3]) 3).
  - reflexivity.
  - simpl. intros [H|[]]. discriminate.
Defined.

Lemma disconnect_drops_the_oldest_registration_witness :
  Signals.disconnect (Fixtures.with_observers [3; 1; 3]) 3
  = Val (Fixtures.with_observers ([] ++ [1] ++ [3])).
Proof.
  apply (disconnect_drops_the_oldest_registration Fixtures.heap
           (Fixtures.with_observers [3; 1])
           (Fixtures.with_observers [3; 1; 3]) 3 [] [1]).
  - reflexivity.
  - reflexivity.
  - simpl. tauto.
Defined.

(** ** The dispatcher: window events *)

Section WindowEvents.

Import Signals Instances.

Variable heap : Heap.

(** X5. For [openwindow] the observers get the window address alone, the text
    before the first comma of the payload, and the whole payload when it
    has no comma. *)
Theorem openwindow_passes_the_text_before_the_first_comma
    (self : Instance) (address rest : string) (t : Trace) :
  PyStr.has_char "," address = false ->
  handle_line heap self ("openwindow>>" ++ address ++ "," ++ rest)%string t
  = emit heap (signal_window_created self)
      [("created_window_address", VStr address)] t /\
  handle_line heap self ("openwindow>>" ++ address)%string t
  = emit heap (signal_window_created self)
      [("created_window_address", VStr address)] t.
Proof.
  intros Hcomma. split; unfold handle_line.
  - change (PyStr.split_max1 ">>"
              ("openwindow>>" ++ address ++ "," ++ rest)%string)
      with ["openwindow"; (address ++ String "," rest)%string].
    cbn [dict_get signal_for_event String.eqb Ascii.eqb Bool.eqb].
    destruct (_observers (signal_window_created self)) eqn:Hobs;
      [now rewrite emit_no_observers|].
    now rewrite (split_char_piece _ _ rest Hcomma).
  - change (PyStr.split_max1 ">>" ("openwindow>>" ++ address)%string)
      with ["openwindow"; address].
    cbn [dict_get signal_for_event String.eqb Ascii.eqb Bool.eqb].
    destruct (_observers (signal_window_created self)) eqn:Hobs;
      [now rewrite emit_no_observers|].
    now rewrite (split_char_last _ _ Hcomma).
Qed.

(** X6. For [closewindow] the observers get the payload as it is, whatever it
    holds, commas and further [>>] included. *)
Theorem closewindow_passes_the_payload_unchanged
    (self : Instance) (payload : string) (t : Trace) :
  handle_line heap self ("closewindow>>" ++ payload)%string t
  = emit heap (signal_window_destroyed self)
      [("destroyed_window_address", VStr payload)] t.
Proof.
  unfold handle_line.
  change (PyStr.split_max1 ">>" ("closewindow>>" ++ payload)%string)
    with ["closewindow"; payload].
  cbn [dict_get signal_for_event String.eqb Ascii.eqb Bool.eqb].
  destruct (_observers (signal_window_destroyed self)) eqn:Hobs;
    [now rewrite emit_no_observers | reflexivity].
Qed.

End WindowEvents.

Lemma openwindow_passes_the_text_before_the_first_comma_witness :
  Instances.handle_line Fixtures.heap (Fixtures.instance "")
    "openwindow>>0x1234,1,firefox,Mozilla Firefox" []
  = (Returned tt, [Invoke 1 0 [("created_window_address", VStr "0x1234")]]).
Proof.
  apply (openwindow_passes_the_text_before_the_first_comma Fixtures.heap
           (Fixtures.instance "") "0x1234" "1,firefox,Mozilla Firefox" []).
  reflexivity.
Defined.

(** ** The dispatcher: how a line is cut *)

Section SeparatorFacts.

Import PyStr.

Lemma starts_with_drop sep : forall s,
  starts_with sep s = true -> s = (sep ++ drop (String.length sep) s)%string.
Proof.
  induction sep as [|a sep IH]; intros s H; [reflexivity|].
  destruct s as [|b s]; [discriminate|]. simpl in H.
  apply andb_prop in H as [Hab Hs].
  apply Ascii.eqb_eq in Hab as ->. simpl. now rewrite <- (IH s Hs).
Qed.

Lemma partition_first_unfold sep s :
  partition_first sep s
  = if starts_with sep s
    then Some (EmptyString, drop (String.length sep) s)
    else match s with
         | EmptyString => None
         | String a s' =>
             match partition_first sep s' with
             | Some (before, after) => Some (String a before, after)
             | None => None
             end
         end.
Proof. destruct s; reflexivity. Qed.

(** The cut is at an occurrence of the separator, and no occurrence begins
    before it. *)
Lemma partition_first_some sep : forall s before after,
  partition_first sep s = Some (before, after) ->
  s = (before ++ sep ++ after)%string /\
  forall a1 a2,
    before = (a1 ++ a2)%string -> a2 <> EmptyString ->
    starts_with sep (a2 ++ sep ++ after) = false.
Proof.
  induction s as [|c s IH]; intros before after H;
    rewrite partition_first_unfold in H.
  - destruct (starts_with sep "") eqn:Hs; [|discriminate].
    injection H as <- <-. split; [now apply starts_with_drop|].
    intros [|] a2 Ha Hne; [simpl in Ha; congruence | discriminate].
  - destruct (starts_with sep (String c s)) eqn:Hs.
    + injection H as <- <-. split; [now apply starts_with_drop|].
      intros [|] a2 Ha Hne; [simpl in Ha; congruence | discriminate].
    + destruct (partition_first sep s) as [[b a]|] eqn:Hp; [|discriminate].
      injection H as <- <-. destruct (IH b a eq_refl) as [Heq Hfirst].
      split; [simpl; now rewrite <- Heq|].
      intros [|c1 a1] a2 Ha Hne; simpl in Ha.
      * subst a2. simpl. now rewrite <- Heq.
      * injection Ha as _ Ha. now apply (Hfirst a1).
Qed.

(** Without a cut there is no occurrence of the separator at all. *)
Lemma partition_first_none sep : forall s,
  partition_first sep s = None ->
  forall a1 a2, s = (a1 ++ a2)%string -> starts_with sep a2 = false.
Proof.
  induction s as [|c s IH]; intros H a1 a2 Ha;
    rewrite partition_first_unfold in H.
  - destruct (starts_with sep "") eqn:Hs; [discriminate|].
    destruct a1; [|discriminate]. simpl in Ha. now subst a2.
  - destruct (starts_with sep (String c s)) eqn:Hs; [discriminate|].
    destruct (partition_first sep s) as [[b a]|] eqn:Hp; [discriminate|].
    destruct a1 as [|c1 a1]; simpl in Ha.
    + now subst a2.
    + injection Ha as _ Ha. now apply (IH eq_refl a1).
Qed.

Lemma partition_first_contains sep : forall s,
  str_contains sep s
  = match partition_first sep s with Some _ => true | None => false end.
Proof.
  induction s as [|c s IH]; rewrite partition_first_unfold;
    cbn [str_contains];
    destruct (starts_with sep _); try reflexivity.
  simpl. rewrite IH. now destruct (partition_first sep s) as [[? ?]|].
Qed.

(** X7. A line is cut at its first [>>]: either no [>>] begins anywhere in it
    and it stays in one piece, or it is the event name, [>>] and the
    payload, and no [>>] begins inside the name. The payload may hold
    further [>>]. *)
Theorem line_is_cut_at_its_first_separator (line : string) :
  (split_max1 ">>" line = [line] /\
   forall a1 a2, line = (a1 ++ a2)%string -> starts_with ">>" a2 = false) \/
  (exists name payload,
     split_max1 ">>" line = [name; payload] /\
     line = (name ++ ">>" ++ payload)%string /\
     forall a1 a2,
       name = (a1 ++ a2)%string -> a2 <> EmptyString ->
       starts_with ">>" (a2 ++ ">>" ++ payload) = false).
Proof.
  unfold split_max1.
  destruct (partition_first ">>" line) as [[name payload]|] eqn:Hp.
  - right. exists name, payload.
    destruct (partition_first_some _ _ _ _ Hp) as [Heq Hfirst].
    now repeat split.
  - left. split; [reflexivity|]. now apply partition_first_none.
Qed.

End SeparatorFacts.

(** ** The dispatcher: chunks *)

Section ChunkFacts.

Import Signals Instances.

Variable heap : Heap.

Lemma split_char_never_empty c s : PyStr.split_char c s <> [].
Proof.
  destruct s as [|a s]; simpl; [discriminate|].
  destruct (Ascii.eqb a c); [discriminate|].
  destruct (PyStr.split_char c s); discriminate.
Qed.

(** Splitting what is before a separator and what is after it gives the
    pieces of the whole. *)
Lemma split_char_at_separator c s1 s2 :
  PyStr.split_char c (s1 ++ String c s2)
  = PyStr.split_char c s1 ++ PyStr.split_char c s2.
Proof.
  induction s1 as [|a s1 IH]; simpl.
  - now rewrite Ascii.eqb_refl.
  - destruct (Ascii.eqb a c); [now rewrite IH|].
    rewrite IH.
    destruct (PyStr.split_char c s1) as [|p ps] eqn:Hs; [|reflexivity].
    now destruct (split_char_never_empty c s1).
Qed.

Lemma lines_of_at_terminator data1 data2 :
  lines_of (data1 ++ String PyStr.newline data2)
  = lines_of (data1 ++ String PyStr.newline "") ++ lines_of data2.
Proof.
  unfold lines_of. rewrite !split_char_at_separator, !filter_app.
  simpl. now rewrite app_nil_r.
Qed.

(** X8. Two chunks of which the first ends in a line terminator, handled as
    one piece of text, are handled as the first and then the second: at a
    line boundary it does not matter how the text was cut into reads, and
    the second chunk is not handled when the first raises. *)
Theorem chunks_compose_at_a_line_terminator
    (self : Instance) (data1 data2 : string) (t : Trace) :
  _handle_socket_data heap self (data1 ++ String PyStr.newline data2) t
  = (_handle_socket_data heap self (data1 ++ String PyStr.newline "") ;;
     _handle_socket_data heap self data2) t.
Proof.
  unfold _handle_socket_data, handle_lines.
  now rewrite lines_of_at_terminator, for_each_app.
Qed.

Lemma filter_nonempty_twice (lines : list string) :
  filter (fun line => (0 <? String.length line)%nat)
    (filter (fun line => (0 <? String.length line)%nat) lines)
  = filter (fun line => (0 <? String.length line)%nat) lines.
Proof.
  induction lines as [|l lines IH]; simpl; [reflexivity|].
  destruct (0 <? String.length l)%nat eqn:Hl; simpl;
    [rewrite Hl; now f_equal | exact IH].
Qed.

(** X9. Empty lines count for nothing: a chunk is handled as the chunk without
    its empty lines is, so a line terminator at the start or two in a row
    raise nothing, although an empty line has no separator. *)
Theorem empty_lines_are_passed_over
    (self : Instance) (lines : list string) (fragment : string) (t : Trace) :
  Forall (fun line => PyStr.has_char PyStr.newline line = false) lines ->
  PyStr.has_char PyStr.newline fragment = false ->
  _handle_socket_data heap self (PyStr.chunk lines fragment) t
  = _handle_socket_data heap self
      (PyStr.chunk
         (filter (fun line => (0 <? String.length line)%nat) lines)
         fragment) t.
Proof.
  intros Hlines Hfrag. unfold _handle_socket_data.
  rewrite !lines_of_chunk; try assumption.
  - now rewrite !filter_app, filter_nonempty_twice.
  - rewrite Forall_forall in Hlines |- *. intros l Hin.
    apply filter_In in Hin as [Hin _]. now apply Hlines.
Qed.

(** On an instance as [__init__] leaves it no signal has an observer. *)
Lemma fresh_instance_has_no_observer self_ref socket name signal :
  dict_get name (signal_for_event (init self_ref socket)) = Some signal ->
  _observers signal = [].
Proof.
  unfold signal_for_event. cbn [dict_get init signal_window_created
    signal_window_destroyed signal_active_window_changed
    signal_workspace_created signal_workspace_destroyed
    signal_active_workspace_changed].
  repeat match goal with
  | |- context [String.eqb ?k name] => destruct (String.eqb k name)
  end; intros [= <-] || discriminate; reflexivity.
Qed.

Lemma fresh_instance_line self_ref socket line t :
  handle_line heap (init self_ref socket) line t
  = (if str_contains ">>" line then Returned tt else Raised ValueError, t).
Proof.
  rewrite partition_first_contains. unfold handle_line, PyStr.split_max1.
  destruct (PyStr.partition_first ">>" line) as [[name payload]|];
    [|reflexivity].
  destruct (dict_get name (signal_for_event (init self_ref socket)))
    as [signal|] eqn:Hget; [|reflexivity].
  now rewrite (fresh_instance_has_no_observer _ _ _ _ Hget).
Qed.

(** X10. Before any observer is connected the handler calls nothing, whatever
    it is given; it returns when every non-empty line of the chunk holds a
    [>>], known event or not, and raises a [ValueError] otherwise. *)
Theorem fresh_instance_calls_nothing
    (self_ref : ObjRef) (socket : Sockets.EventSocket)
    (data : string) (t : Trace) :
  _handle_socket_data heap (init self_ref socket) data t
  = (if forallb (str_contains ">>") (lines_of data)
     then Returned tt else Raised ValueError, t).
Proof.
  unfold _handle_socket_data, handle_lines.
  induction (lines_of data) as [|line lines IH]; [reflexivity|].
  cbn [for_each forallb]. unfold bind.
  rewrite fresh_instance_line.
  destruct (str_contains ">>" line); [exact IH | reflexivity].
Qed.

End ChunkFacts.

Lemma empty_lines_are_passed_over_witness :
  Instances._handle_socket_data Fixtures.heap (Fixtures.instance "")
    (PyStr.chunk [""; "workspace>>3"; ""; ""] "") []
  = Instances._handle_socket_data Fixtures.heap (Fixtures.instance "")
      (PyStr.chunk ["workspace>>3"] "") [].
Proof.
  apply (empty_lines_are_passed_over Fixtures.heap (Fixtures.instance "")
           [""; "workspace>>3"; ""; ""] "" []).
  - repeat constructor.
  - reflexivity.
Defined.

(** ** The handler leaves the socket alone *)

Lemma ret_only_invokes {A} (a : A) : only_invokes (ret a).
Proof. intros t. reflexivity. Qed.

Lemma raise_only_invokes {A} (e : Exn) : only_invokes (@raise A e).
Proof. intros t. reflexivity. Qed.

Lemma bind_only_invokes {A B} (m : M A) (k : A -> M B) :
  only_invokes m -> (forall a, only_invokes (k a)) ->
  only_invokes (bind m k).
Proof.
  intros Hm Hk t. specialize (Hm t). unfold bind.
  destruct (m t) as [[a|e|] t1]; simpl in Hm; try exact Hm.
  now rewrite Hk.
Qed.

Lemma for_each_only_invokes {A} (l : list A) (f : A -> M unit) :
  (forall x, only_invokes (f x)) -> only_invokes (for_each l f).
Proof.
  intros Hf. induction l as [|x l IH]; simpl.
  - apply ret_only_invokes.
  - apply bind_only_invokes; auto.
Qed.

Section HandlerAndSocket.

Import Signals Instances.

Variable heap : Heap.

Lemma call_only_invokes callback sender kwargs :
  only_invokes (call heap callback sender kwargs).
Proof.
  intros t. unfold call, bind, log, ret, raise.
  destruct (callable (heap callback)); [|reflexivity].
  destruct (body (heap callback) sender kwargs); simpl;
    unfold socket_calls; rewrite filter_app; simpl; now rewrite app_nil_r.
Qed.

Lemma emit_only_invokes signal kwargs :
  only_invokes (emit heap signal kwargs).
Proof. apply for_each_only_invokes. intros cb. apply call_only_invokes. Qed.

Lemma workspace_id_only_invokes payload :
  only_invokes (workspace_id payload).
Proof.
  unfold workspace_id, int.
  destruct (negb _); [destruct (PyStr.int payload)|];
    (apply ret_only_invokes || apply raise_only_invokes).
Qed.

Lemma handle_line_only_invokes self line :
  only_invokes (handle_line heap self line).
Proof.
  unfold handle_line.
  destruct (PyStr.split_max1 ">>" line) as [|name [|payload [|]]];
    try apply raise_only_invokes.
  destruct (dict_get name (signal_for_event self)) as [signal|];
    [|apply ret_only_invokes].
  destruct (_observers signal); [apply ret_only_invokes|].
  repeat match goal with
  | |- only_invokes (if ?b then _ else _) => destruct b
  end;
  repeat first
    [ apply emit_only_invokes
    | apply workspace_id_only_invokes
    | apply ret_only_invokes
    | apply bind_only_invokes; [|intros ?]
    | unfold first_item; destruct (PyStr.split_char _ _);
      (apply ret_only_invokes || apply raise_only_invokes) ].
Qed.

Lemma handle_only_invokes self data t :
  socket_calls (snd (_handle_socket_data heap self data t)) = socket_calls t.
Proof.
  apply (for_each_only_invokes (lines_of data) (handle_line heap self)).
  apply handle_line_only_invokes.
Qed.

End HandlerAndSocket.

(** ** [watch]: how it runs and how it ends *)

Section WatchRuns.

Import Signals Instances.

Variable heap : Heap.

(** A round of the loop, by how its [wait] and its [read] end. *)
Lemma watch_round_cases self n t :
  watch_round heap self n t
  = match Sockets.wait_result (event_socket self) n with
    | Some e => (Raised e, t ++ [SockWait])
    | None =>
        match Sockets.read_result (event_socket self) n with
        | Exc e => (Raised e, t ++ [SockWait; SockRead])
        | Val data =>
            _handle_socket_data heap self data (t ++ [SockWait; SockRead])
        end
    end.
Proof.
  unfold watch_round, Sockets.wait, Sockets.read, Sockets.returns_or_raises,
    bind, log, lift, ret, raise.
  destruct (Sockets.wait_result (event_socket self) n); [reflexivity|].
  rewrite <- app_assoc. simpl.
  destruct (Sockets.read_result (event_socket self) n); reflexivity.
Qed.

(** [watch] by what its loop does. *)
Lemma watch_cases self fuel t :
  watch heap self fuel t
  = match Sockets.connect_result (event_socket self) with
    | Some e =>
        (Raised (match Sockets.close_result (event_socket self) with
                 | Some e' => e'
                 | None => e
                 end),
         t ++ [SockConnect; SockClose])
    | None =>
        match while_true fuel 0 (watch_round heap self)
                (t ++ [SockConnect]) with
        | (Unfinished, t1) => (Unfinished, t1)
        | (r, t1) =>
            (match Sockets.close_result (event_socket self) with
             | Some e' => Raised e'
             | None => r
             end,
             t1 ++ [SockClose])
        end
    end.
Proof.
  unfold watch, try_finally, Sockets.connect, Sockets.close,
    Sockets.returns_or_raises.
  unfold bind at 1. unfold bind at 1. unfold log at 1.
  destruct (Sockets.connect_result (event_socket self)) as [e|].
  - unfold raise, bind, log. rewrite <- app_assoc. simpl.
    destruct (Sockets.close_result (event_socket self)); reflexivity.
  - unfold ret at 1.
    destruct (while_true fuel 0 (watch_round heap self) (t ++ [SockConnect]))
      as [[[]|e|] t1]; [| |reflexivity];
      unfold bind, log;
      destruct (Sockets.close_result (event_socket self)); reflexivity.
Qed.

(** X12. [watch] does not come to an end by itself: a run that ends, ends by an
    exception. *)
Theorem watch_ends_only_by_an_exception
    (self : Instance) (fuel : nat) (t : Trace) :
  fst (watch heap self fuel t) = Unfinished \/
  exists e, fst (watch heap self fuel t) = Raised e.
Proof.
  pose proof (watch_never_returns heap self fuel t) as Hnot.
  destruct (watch heap self fuel t) as [[[]|e|] t1]; simpl in *.
  - congruence.
  - right. now exists e.
  - now left.
Qed.

(** X13. As long as [connect], every [wait], every [read] and the handler on
    every chunk read go well, [watch] goes on: it has not ended after any
    number of rounds, and it has not closed the socket. *)
Theorem watch_goes_on_while_nothing_raises
    (self : Instance) (fuel : nat) (t : Trace) :
  Sockets.connect_result (event_socket self) = None ->
  (forall n, Sockets.wait_result (event_socket self) n = None) ->
  (forall n, exists data,
     Sockets.read_result (event_socket self) n = Val data /\
     forall t0, fst (_handle_socket_data heap self data t0) = Returned tt) ->
  fst (watch heap self fuel t) = Unfinished /\
  socket_calls (snd (watch heap self fuel t))
  = socket_calls t ++ SockConnect :: rounds fuel.
Proof.
  intros Hconn Hwait Hread. rewrite watch_cases, Hconn.
  assert (Hloop : forall fuel i t0,
            fst (while_true fuel i (watch_round heap self) t0) = Unfinished /\
            socket_calls (snd (while_true fuel i (watch_round heap self) t0))
            = socket_calls t0 ++ rounds fuel).
  { clear fuel t. induction fuel as [|fuel IH]; intros i t0.
    - simpl. now rewrite app_nil_r.
    - cbn [while_true rounds]. unfold bind.
      rewrite watch_round_cases, Hwait.
      destruct (Hread i) as (data & -> & Hret).
      specialize (Hret (t0 ++ [SockWait; SockRead])).
      pose proof (handle_only_invokes heap self data
                    (t0 ++ [SockWait; SockRead])) as Hinv.
      destruct (_handle_socket_data heap self data _) as [[[]|e|] t1];
        simpl in Hret; try discriminate.
      simpl in Hinv. destruct (IH (S i) t1) as [Hf Hs].
      split; [exact Hf|].
      rewrite Hs, Hinv. unfold socket_calls. rewrite filter_app, <- app_assoc.
      reflexivity. }
  destruct (Hloop fuel 0 (t ++ [SockConnect])) as [Hf Hs].
  destruct (while_true fuel 0 (watch_round heap self) (t ++ [SockConnect]))
    as [[[]|e|] t1]; simpl in Hf; try discriminate.
  split; [reflexivity|]. simpl in *. rewrite Hs.
  unfold socket_calls. rewrite filter_app, <- app_assoc. reflexivity.
Qed.

End WatchRuns.

Lemma watch_goes_on_while_nothing_raises_witness :
  fst (Instances.watch Fixtures.heap
         (MoreFixtures.instance_on
            (MoreFixtures.steady_socket
               (PyStr.chunk ["workspace>>7"; "futureevent>>x,y"] "")))
         5 []) = Unfinished /\
  socket_calls
    (snd (Instances.watch Fixtures.heap
            (MoreFixtures.instance_on
               (MoreFixtures.steady_socket
                  (PyStr.chunk ["workspace>>7"; "futureevent>>x,y"] "")))
            5 []))
  = socket_calls [] ++ SockConnect :: rounds 5.
Proof.
  apply (watch_goes_on_while_nothing_raises Fixtures.heap
           (MoreFixtures.instance_on
              (MoreFixtures.steady_socket
                 (PyStr.chunk ["workspace>>7"; "futureevent>>x,y"] "")))
           5 []).
  - reflexivity.
  - intros n. reflexivity.
  - intros n.
    exists (PyStr.chunk ["workspace>>7"; "futureevent>>x,y"] "").
    split; [reflexivity|]. intros t0. reflexivity.
Defined.

Section WatchEnds.

Import Signals Instances.

Variable heap : Heap.

Lemma socket_calls_app t1 t2 :
  socket_calls (t1 ++ t2) = socket_calls t1 ++ socket_calls t2.
Proof. apply filter_app. Qed.

(** X14. When [connect] fails, [watch] neither waits nor reads: it closes the
    socket and raises what [connect] raised, or what [close] raises if
    that fails too. *)
Theorem failed_connect_is_closed_and_raised
    (self : Instance) (fuel : nat) (t : Trace) (e : Exn) :
  Sockets.connect_result (event_socket self) = Some e ->
  watch heap self fuel t
  = (Raised (match Sockets.close_result (event_socket self) with
             | Some e' => e'
             | None => e
             end),
     t ++ [SockConnect; SockClose]).
Proof. intros Hconn. now rewrite watch_cases, Hconn. Qed.

(** X15. When [close] fails, its exception is the one [watch] ends with: the
    exception that ended the loop is lost. *)
Theorem failed_close_hides_the_first_exception
    (self : Instance) (fuel : nat) (t : Trace) (e' : Exn) :
  Sockets.close_result (event_socket self) = Some e' ->
  fst (watch heap self fuel t) = Unfinished \/
  fst (watch heap self fuel t) = Raised e'.
Proof.
  intros Hclose. rewrite watch_cases, Hclose.
  destruct (Sockets.connect_result (event_socket self)); [now right|].
  destruct (while_true fuel 0 (watch_round heap self) (t ++ [SockConnect]))
    as [[[]|e|] t1]; simpl; auto.
Qed.

Lemma loop_uses_socket_in_order self : forall fuel i t,
  exists k tail,
    k <= fuel /\ (tail = [] \/ tail = [SockWait]) /\
    socket_calls (snd (while_true fuel i (watch_round heap self) t))
    = socket_calls t ++ rounds k ++ tail.
Proof.
  induction fuel as [|fuel IH]; intros i t.
  - exists 0, []. simpl. rewrite app_nil_r. auto.
  - cbn [while_true]. unfold bind. rewrite watch_round_cases.
    destruct (Sockets.wait_result (event_socket self) i) as [e|].
    { exists 0, [SockWait]. simpl. rewrite socket_calls_app.
      repeat split; [lia | auto]. }
    destruct (Sockets.read_result (event_socket self) i) as [data|e].
    2:{ exists 1, []. simpl. rewrite socket_calls_app.
        repeat split; [lia | auto]. }
    pose proof (handle_only_invokes heap self data
                  (t ++ [SockWait; SockRead])) as Hinv.
    rewrite socket_calls_app in Hinv.
    destruct (_handle_socket_data heap self data (t ++ [SockWait; SockRead]))
      as [[[]|e|] t1]; simpl in Hinv.
    + destruct (IH (S i) t1) as (k & tail & Hk & Htail & Hs).
      exists (S k), tail. rewrite Hs, Hinv, <- app_assoc.
      repeat split; [lia | exact Htail].
    + exists 1, []. simpl. rewrite Hinv. repeat split; [lia | auto].
    + exists 1, []. simpl. rewrite Hinv. repeat split; [lia | auto].
Qed.

(** X16. The event socket is used in one order only: [connect] first, then
    rounds of a [wait] followed by a [read], possibly one last [wait]
    that was not followed by a [read], and [close] at the end of a run
    that has ended. There is no [read] without the [wait] before it and
    nothing after [close]. *)
Theorem socket_is_used_in_order
    (self : Instance) (fuel : nat) (t : Trace) :
  exists k tail,
    k <= fuel /\ (tail = [] \/ tail = [SockWait]) /\
    socket_calls (snd (watch heap self fuel t))
    = socket_calls t ++ SockConnect :: rounds k ++ tail
      ++ (if is_finished (fst (watch heap self fuel t))
          then [SockClose] else []).
Proof.
  rewrite watch_cases.
  destruct (Sockets.connect_result (event_socket self)) as [e|].
  { exists 0, []. simpl. rewrite socket_calls_app.
    repeat split; [lia | auto]. }
  destruct (loop_uses_socket_in_order self fuel 0 (t ++ [SockConnect]))
    as (k & tail & Hk & Htail & Hs).
  rewrite socket_calls_app in Hs.
  exists k, tail. split; [exact Hk|]. split; [exact Htail|].
  destruct (while_true fuel 0 (watch_round heap self) (t ++ [SockConnect]))
    as [[[]|e|] t1]; simpl in Hs |- *.
  - rewrite socket_calls_app, Hs.
    destruct (Sockets.close_result (event_socket self)); simpl;
      now rewrite <- !app_assoc.
  - rewrite socket_calls_app, Hs.
    destruct (Sockets.close_result (event_socket self)); simpl;
      now rewrite <- !app_assoc.
  - rewrite Hs, app_nil_r, <- app_assoc. reflexivity.
Qed.

End WatchEnds.

Lemma failed_connect_is_closed_and_raised_witness :
  Instances.watch Fixtures.heap
    (MoreFixtures.instance_on MoreFixtures.broken_socket) 4 []
  = (Raised (OtherError "BrokenPipeError"), [] ++ [SockConnect; SockClose]).
Proof.
  apply (failed_connect_is_closed_and_raised Fixtures.heap
           (MoreFixtures.instance_on MoreFixtures.broken_socket) 4 []
           (OtherError "ConnectionRefusedError")).
  reflexivity.
Defined.

Lemma failed_close_hides_the_first_exception_witness :
  fst (Instances.watch Fixtures.heap
         (MoreFixtures.instance_on MoreFixtures.broken_socket) 4 [])
  = Unfinished \/
  fst (Instances.watch Fixtures.heap
         (MoreFixtures.instance_on MoreFixtures.broken_socket) 4 [])
  = Raised (OtherError "BrokenPipeError").
Proof.
  apply (failed_close_hides_the_first_exception Fixtures.heap
           (MoreFixtures.instance_on MoreFixtures.broken_socket) 4 []).
  reflexivity.
Defined.

Lemma line_is_cut_at_its_first_separator_witness :
  (PyStr.split_max1 ">>" "closewindow>>a>>b" = ["closewindow>>a>>b"] /\
   forall a1 a2, "closewindow>>a>>b" = (a1 ++ a2)%string ->
                 PyStr.starts_with ">>" a2 = false) \/
  (exists name payload,
     PyStr.split_max1 ">>" "closewindow>>a>>b" = [name; payload] /\
     "closewindow>>a>>b" = (name ++ ">>" ++ payload)%string /\
     forall a1 a2,
       name = (a1 ++ a2)%string -> a2 <> EmptyString ->
       PyStr.starts_with ">>" (a2 ++ ">>" ++ payload) = false).
Proof.
  exact (line_is_cut_at_its_first_separator "closewindow>>a>>b").
Defined.
